(** * Azkaban project module ([azkaban/project.py]): a shallow embedding

    The module defines one class, [Project], whose methods mutate the
    project object, read and write the file system, read and write the
    credential file [~/.azkabanrc], prompt the user and talk to the Azkaban
    server over HTTP.  Every method is embedded as a computation in a state
    and exception monad over an explicit machine state; Python dictionaries
    are finite maps, and the objects handed around by reference (projects)
    live in a heap indexed by references, so that [p.merge_into(p)] is a
    call like any other.

    The module is Python 2: [d.items()] is a list taken when it is called,
    so a loop over it is not disturbed by changes to [d].  The order of a
    dictionary is some fixed order of its keys, here the order of
    [map_to_list]; the theorems below hold whichever order it is.

    The trace of a run records the calls of [requests.post], the prompts for
    a password, the lines logged at level [INFO] and [ERROR] and what is
    written to standard output.  Calls of [logger.debug] have no effect that
    another part of the module can see and are left out.

    An archive is the list of the entries written to it, each under the
    name that [ZipFile.write] stores it under: the name it was asked for,
    normalised by [os.path.normpath] and without its leading slashes.  The
    disk lists the files only; whether a file can be created at a path is
    asked of the environment. *)

From Stdlib Require Import ZArith Ascii.
From stdpp Require Import gmap strings list fin_maps.

Open Scope string_scope.
Open Scope list_scope.
#[local] Set Warnings "-register-all".

(** ** Python values used by the module *)

(** Exceptions that the module raises itself or lets through. *)
Inductive exn : Type :=
| AzkabanError (msg : string)      (* azkaban.util.AzkabanError *)
| ValueError (msg : string)
| KeyError (key : string)
| IndexError (msg : string)
| NameError (ident : string)
| NoSectionError (section : string)
| NoOptionError (option section : string)
| IOError (path : string)          (* open() on a missing file *)
| OSError (path : string)          (* os.stat / getsize on a missing file *)
| ConnectionError                  (* requests.ConnectionError *)
| MissingSchema                    (* requests.exceptions.MissingSchema *)
| SystemExit (code : Z).

Global Instance exn_eq_dec : EqDecision exn.
Proof. solve_decision. Defined.

Definition is_azkaban_error (e : exn) : bool :=
  match e with AzkabanError _ => true | _ => false end.

(** Python string primitives, on byte strings. *)
Module PyStr.

Definition dquote : ascii := ascii_of_nat 34.
Definition squote : ascii := ascii_of_nat 39.
Definition backslash : ascii := ascii_of_nat 92.

Fixpoint has_char (c : ascii) (s : string) : bool :=
    match s with
    | EmptyString => false
    | String d s' => Ascii.eqb c d || has_char c s'
    end.

Definition hex_digit (n : N) : ascii :=
    if (n <? 10)%N then ascii_of_N (48 + n) else ascii_of_N (87 + n).

  (** One character of [repr(s)] for the chosen quote. *)
Definition repr_char (quote c : ascii) : string :=
    let n := N_of_ascii c in
    if Ascii.eqb c quote || Ascii.eqb c backslash then String backslash (String c EmptyString)
    else if (n =? 9)%N then String backslash "t"
    else if (n =? 10)%N then String backslash "n"
    else if (n =? 13)%N then String backslash "r"
    else if (n <? 32)%N || (127 <=? n)%N then
      String backslash (String "x" (String (hex_digit (n / 16)) (String (hex_digit (n mod 16)) EmptyString)))
    else String c EmptyString.

Fixpoint repr_body (quote : ascii) (s : string) : string :=
    match s with
    | EmptyString => EmptyString
    | String c s' => repr_char quote c +:+ repr_body quote s'
    end.

  (** [repr(s)], the ['%r'] conversion: single quotes unless the string holds
      a single quote and no double quote. *)
Definition repr (s : string) : string :=
    let quote := if has_char squote s && negb (has_char dquote s) then dquote else squote in
    String quote (repr_body quote s) +:+ String quote EmptyString.

  (** ['%r'] of a value that may be [None]. *)
Definition repr_opt (o : option string) : string :=
    match o with Some s => repr s | None => "None" end.

  (** ['%s'] of a value that may be [None]. *)
Definition str_opt (o : option string) : string :=
    match o with Some s => s | None => "None" end.

  (** [os.path.isabs] (posixpath): the path starts with a slash. *)
Definition isabs (path : string) : bool :=
    match path with
    | String c _ => Ascii.eqb c "/"
    | EmptyString => false
    end.

Definition is_empty (s : string) : bool :=
    match s with EmptyString => true | _ => false end.

  (** [s.rstrip(c)] *)
Fixpoint rstrip (c : ascii) (s : string) : string :=
    match s with
    | EmptyString => EmptyString
    | String d s' =>
        let r := rstrip c s' in
        if Ascii.eqb d c && is_empty r then EmptyString else String d r
    end.

  (** [s.lstrip(c)] *)
Fixpoint lstrip (c : ascii) (s : string) : string :=
    match s with
    | EmptyString => EmptyString
    | String d s' => if Ascii.eqb d c then lstrip c s' else s
    end.

  (** [s.split(sep)] for a separator of one character *)
Fixpoint split (sep : ascii) (s : string) : list string :=
    match s with
    | EmptyString => [EmptyString]
    | String c s' =>
        if Ascii.eqb c sep then EmptyString :: split sep s'
        else match split sep s' with
             | w :: ws => String c w :: ws
             | [] => [String c EmptyString]
             end
    end.

  (** [sep.join(l)] *)
Fixpoint join (sep : string) (l : list string) : string :=
    match l with
    | [] => EmptyString
    | [x] => x
    | x :: l' => x +:+ sep +:+ join sep l'
    end.

  (** [os.path.normpath] (posixpath).  One or two leading slashes are kept,
      three or more are one; empty components and [.] are dropped, and [..]
      takes the component before it away unless there is none to take or
      it is [..] itself. *)
Definition initial_slashes (path : string) : nat :=
    if String.prefix "/" path then
      if String.prefix "//" path && negb (String.prefix "///" path) then 2 else 1
    else 0.

Definition normpath_step (initial : nat) (new_comps : list string) (comp : string)
      : list string :=
    if String.eqb comp EmptyString || String.eqb comp "." then new_comps
    else if negb (String.eqb comp "..")
            || ((initial =? 0)%nat && bool_decide (new_comps = []))
            || bool_decide (last new_comps = Some "..")
         then new_comps ++ [comp]
         else removelast new_comps.

Definition normpath (path : string) : string :=
    if is_empty path then "."
    else
      let initial := initial_slashes path in
      let comps := fold_left (normpath_step initial) (split "/" path) [] in
      let path := join "/" comps in
      let path := match initial with
                  | 0 => path
                  | 1 => "/" +:+ path
                  | _ => "//" +:+ path
                  end in
      if is_empty path then "." else path.

  (** The string up to its first null byte. *)
Fixpoint until_nul (s : string) : string :=
    match s with
    | EmptyString => EmptyString
    | String c s' => if Ascii.eqb c Ascii.zero then EmptyString else String c (until_nul s')
    end.

  (** Truth value of a string, and of a string that may be [None]. *)
Definition truthy (s : string) : bool := negb (is_empty s).

Definition truthy_opt (o : option string) : bool :=
    match o with Some s => truthy s | None => false end.

  (** [a or b] on strings that may be [None], when [b] is a string. *)
Definition or_else (o : option string) (d : string) : string :=
    match o with
    | Some s => if truthy s then s else d
    | None => d
    end.

End PyStr.

Import PyStr.

(** ** Files *)

(** What a path of the file system holds: a plain file, or a zip archive
    given by its entries in the order they were written.  An entry is the
    name it is stored under and a copy of the file written. *)
Inductive fobj : Type :=
| Plain (text : string)
| ZipArchive (entries : list (string * fobj)).

Abbreviation fsys := (gmap string fobj).

(** The credential file: the options of its [DEFAULT] section and its named
    sections.  [RawConfigParser] keeps the same two tables, and never has
    [DEFAULT] among the named sections. *)
Record config : Type := mkConfig {
  defaults : gmap string string;
  sections : gmap string (gmap string string)
}.

Definition empty_config : config := mkConfig ∅ ∅.

(** ** HTTP *)

(** The file part of a multipart request: file name, content, MIME type. *)
Definition upload_part : Type := string * fobj * string.

(** What [requests] hands back: the body and the outcome of [.json()],
    [None] when the body is not JSON.  JSON values are kept in their string
    form. *)
Record Response : Type := mkResponse {
  text : string;
  json : option (gmap string string)
}.

Inductive post_result : Type :=
| PostRaises (e : exn)
| PostResponse (r : Response).

(** ** Observable events *)

Inductive loglevel : Type := INFO | ERROR.

Inductive event : Type :=
| EvPost (url : string) (data : gmap string string) (files : gmap string upload_part)
| EvPrompt (prompt : string)
| EvLog (level : loglevel) (msg : string)
| EvStdout (out : string).

Definition is_post (e : event) : bool :=
  match e with EvPost _ _ _ => true | _ => false end.

Definition is_prompt (e : event) : bool :=
  match e with EvPrompt _ => true | _ => false end.

(** Values handed to [pretty_print]. *)
Inductive pyobj : Type :=
| PStr (s : string)
| PList (l : list pyobj)
| PDict (d : list (string * pyobj)).

(** ** The environment of a run

    Everything the module asks of the outside: the operating system, the
    user at the terminal, the server, and the helpers of [azkaban.util]
    whose code is not part of this module. *)
Class Env : Type := mkEnv {
  (** [getpass.getuser()] *)
  getuser : string;
  (** [getpass.getpass(prompt)]: what the user types *)
  getpass : string -> string;
  (** the answer of [requests.post], which may depend on what was sent before *)
  server : list event -> string -> gmap string string -> gmap string upload_part -> post_result;
  (** [tempfile.mkstemp]: a path that no file has *)
  mkstemp : fsys -> string;
  mkstemp_fresh : forall fs : fsys, fs !! mkstemp fs = None;
  (** whether [open(path, 'wb')] can create or truncate the file at [path]:
      the directory of the path is there and the path is not a directory.
      The disk of the model lists the files only. *)
  can_create : fsys -> string -> bool;
  (** [os.path.getsize] of a file object *)
  getsize : fobj -> N;
  (** [os.path.relpath], [os.path.abspath] for the current directory *)
  relpath : string -> string;
  abspath : string -> string;
  (** [azkaban.util.human_readable] *)
  human_readable : N -> string;
  (** [azkaban.util.pretty_print]: the text it writes to standard output *)
  pretty_print : pyobj -> string
}.

(** ** Projects and jobs *)

Record Project (Job : Type) : Type := mkProject {
  name : string;
  _jobs : gmap string Job;
  _files : gmap string (option string)
}.

Arguments mkProject {Job} _ _ _.
Arguments name {Job} _.
Arguments _jobs {Job} _.
Arguments _files {Job} _.

(** [Project(name)] *)
Definition new_project {Job : Type} (name : string) : Project Job :=
  mkProject name ∅ ∅.

(** The interface of [azkaban.job.Job] used by this module.  The class is
    defined in another module; a handler is given the project it is called
    on and the name of the job, may look at the disk, may change that
    project and may raise: it returns the project as it leaves it and the
    exception, if any. *)
Class JobOps (Job : Type) : Type := mkJobOps {
  (** [job.on_add(project, name)] *)
  on_add : Job -> string -> fsys -> Project Job -> Project Job * option exn;
  (** [job.on_build(project, name)] *)
  on_build : Job -> string -> fsys -> Project Job -> Project Job * option exn;
  (** the text that [job.build(path)] writes to [path] *)
  job_text : Job -> string;
  (** [job.build_options] *)
  build_options : Job -> gmap string string
}.

(** ** Machine state and the monad of computations *)

Abbreviation ref := nat.

Record state (Job : Type) : Type := mkState {
  heap : ref -> Project Job;     (* the project objects *)
  fs : fsys;                     (* the file system *)
  rc : config;                   (* the content of ~/.azkabanrc *)
  trace : list event             (* what was sent, asked and printed, oldest first *)
}.

Arguments mkState {Job} _ _ _ _.
Arguments heap {Job} _ _.
Arguments fs {Job} _.
Arguments rc {Job} _.
Arguments trace {Job} _.

Section Monad.

Context {Job : Type}.

  (** A computation runs from a state to a state and either raises or
      returns; the state reached is kept in both cases. *)
Definition M (A : Type) : Type := state Job -> state Job * (exn + A).

Definition ret {A} (a : A) : M A := fun s => (s, inr a).

Definition raise {A} (e : exn) : M A := fun s => (s, inl e).

Definition bind {A B} (m : M A) (k : A -> M B) : M B :=
    fun s =>
      match m s with
      | (s', inr a) => k a s'
      | (s', inl e) => (s', inl e)
      end.

  (** [try: m finally: f] *)
Definition try_finally {A} (m : M A) (f : M unit) : M A :=
    fun s =>
      match m s with
      | (s', r) =>
          match f s' with
          | (s'', inr _) => (s'', r)
          | (s'', inl e) => (s'', inl e)
          end
      end.

  (** [try: m except ...: h e] where [h] re-raises what it does not handle *)
Definition try_except {A} (m : M A) (h : exn -> M A) : M A :=
    fun s =>
      match m s with
      | (s', inr a) => (s', inr a)
      | (s', inl e) => h e s'
      end.

Definition gets {A} (f : state Job -> A) : M A := fun s => (s, inr (f s)).

Definition modify (f : state Job -> state Job) : M unit := fun s => (f s, inr tt).

  (** [for x in l: body x] over a list computed beforehand *)
Fixpoint for_each {A} (l : list A) (body : A -> M unit) : M unit :=
    match l with
    | [] => ret tt
    | x :: l' => bind (body x) (fun _ => for_each l' body)
    end.

End Monad.

Arguments M : clear implicits.

Declare Scope py_scope.
Delimit Scope py_scope with py.
Notation "x <- m ;; k" := (bind m (fun x => k))
  (at level 100, m at next level, right associativity) : py_scope.
Notation "m ;;; k" := (bind m (fun _ => k))
  (at level 100, right associativity) : py_scope.
Open Scope py_scope.

Section Primitives.

Context {Job : Type} {env : Env}.

Definition set_heap (r : ref) (p : Project Job) (s : state Job) : state Job :=
    mkState (fun r' => if decide (r' = r) then p else heap s r') (fs s) (rc s) (trace s).

Definition set_fs (f : fsys) (s : state Job) : state Job :=
    mkState (heap s) f (rc s) (trace s).

Definition set_rc (c : config) (s : state Job) : state Job :=
    mkState (heap s) (fs s) c (trace s).

Definition emit (e : event) (s : state Job) : state Job :=
    mkState (heap s) (fs s) (rc s) (trace s ++ [e]).

  (** Attribute access on a project object. *)
Definition self_name (self : ref) : M Job string := gets (fun s => name (heap s self)).
Definition self_jobs (self : ref) : M Job (gmap string Job) := gets (fun s => _jobs (heap s self)).
Definition self_files (self : ref) : M Job (gmap string (option string)) :=
    gets (fun s => _files (heap s self)).

  (** [self._jobs[name] = job] and [self._files[path] = archive_path] *)
Definition set_job (self : ref) (key : string) (job : Job) : M Job unit :=
    modify (fun s =>
      let p := heap s self in
      set_heap self (mkProject (name p) (<[key := job]> (_jobs p)) (_files p)) s).

Definition set_file (self : ref) (path : string) (archive_path : option string) : M Job unit :=
    modify (fun s =>
      let p := heap s self in
      set_heap self (mkProject (name p) (_jobs p) (<[path := archive_path]> (_files p))) s).

  (** [d.items()]: the list of pairs of a dictionary, in the order of the
      dictionary, taken when the call is made. *)
Definition items {V} (d : gmap string V) : list (string * V) := map_to_list d.

  (** Calling a handler of a job on the project [self]. *)
Definition call_handler
      (h : Job -> string -> fsys -> Project Job -> Project Job * option exn)
      (job : Job) (self : ref) (name : string) : M Job unit :=
    fun s =>
      match h job name (fs s) (heap s self) with
      | (p', None) => (set_heap self p' s, inr tt)
      | (p', Some e) => (set_heap self p' s, inl e)
      end.

  (** [os.path.exists] *)
Definition exists_ (path : string) : M Job bool :=
    gets (fun s => bool_decide (is_Some (fs s !! path))).

  (** [logger.info], [logger.error], [stdout.write] *)
Definition log (level : loglevel) (msg : string) : M Job unit :=
    modify (emit (EvLog level msg)).

Definition stdout_write (out : string) : M Job unit :=
    modify (emit (EvStdout out)).

  (** [d[key]] on a parsed JSON object *)
Definition getitem (d : gmap string string) (key : string) : M Job string :=
    match d !! key with
    | Some v => ret v
    | None => raise (KeyError key)
    end.

  (** *** The zip writer

      [ZipFile(path, 'w')] creates or truncates the file at [path], or
      raises [IOError] when it cannot; the writer is known by that path.
      [writer.write(filename, arcname)] asks [os.stat] for the file at
      [filename], takes [filename] for [arcname] when that is [None],
      normalises the name and takes its leading slashes away, which raises
      [IndexError] when nothing is left of it, and appends the file to the
      archive under what is left, up to its first null byte. *)
Definition zip_entries (o : option fobj) : list (string * fobj) :=
    match o with
    | Some (ZipArchive es) => es
    | _ => []
    end.

Definition ZipFile (path : string) : M Job string :=
    creatable <- gets (fun s => can_create (fs s) path) ;;
    if negb creatable then raise (IOError path)
    else
      modify (fun s => set_fs (<[path := ZipArchive []]> (fs s)) s) ;;;
      ret path.

  (** The name that [ZipFile.write] is left with, and the name under which
      it stores the entry. *)
Definition stripped_name (arcname : string) : string := lstrip "/" (normpath arcname).

Definition stored_name (arcname : string) : string := until_nul (stripped_name arcname).

Definition zip_write (writer filename : string) (arcname : option string) : M Job unit :=
    fun s =>
      match fs s !! filename with
      | None => (s, inl (OSError filename))
      | Some o =>
          let arcname := default filename arcname in
          if is_empty (stripped_name arcname)
          then (s, inl (IndexError "string index out of range"))
          else
            let es := zip_entries (fs s !! writer) in
            (set_fs (<[writer := ZipArchive (es ++ [(stored_name arcname, o)])]> (fs s)) s,
             inr tt)
      end.

Definition zip_close (writer : string) : M Job unit := ret tt.

  (** [with temppath() as path: body]: the helper of [azkaban.util] yields a
      path that no file has and removes whatever is there when the block
      is left. *)
Definition temppath {A} (body : string -> M Job A) : M Job A :=
    path <- gets (fun s => mkstemp (fs s)) ;;
    try_finally (body path) (modify (fun s => set_fs (delete path (fs s)) s)).

  (** [open(path, 'rb')] *)
Definition open_rb (path : string) : M Job fobj :=
    fun s =>
      match fs s !! path with
      | Some o => (s, inr o)
      | None => (s, inl (IOError path))
      end.

  (** [human_readable(getsize(path))] *)
Definition human_size (path : string) : M Job string :=
    fun s =>
      match fs s !! path with
      | Some o => (s, inr (human_readable (getsize o)))
      | None => (s, inl (OSError path))
      end.

  (** *** The configuration parser *)

  (** [RawConfigParser(dflt)] *)
Definition parser_new (dflt : gmap string string) : config := mkConfig dflt ∅.

  (** [parser.read(self.rcpath)]: a missing file is an empty one. *)
Definition parser_read (parser : config) : M Job config :=
    gets (fun s =>
      mkConfig (defaults (rc s) ∪ defaults parser)
               (union_with (fun a b => Some (a ∪ b)) (sections (rc s)) (sections parser))).

Definition has_section (parser : config) (section : string) : bool :=
    bool_decide (is_Some (sections parser !! section)).

Definition has_option (parser : config) (section option : string) : bool :=
    match sections parser !! section with
    | None => false
    | Some sec =>
        bool_decide (is_Some (sec !! option)) || bool_decide (is_Some (defaults parser !! option))
    end.

Definition parser_get (parser : config) (section option : string) : M Job string :=
    match sections parser !! section with
    | None => raise (NoSectionError section)
    | Some sec =>
        match sec !! option with
        | Some v => ret v
        | None =>
            match defaults parser !! option with
            | Some v => ret v
            | None => raise (NoOptionError option section)
            end
        end
    end.

Definition parser_set (parser : config) (section option value : string) : M Job config :=
    match sections parser !! section with
    | None => raise (NoSectionError section)
    | Some sec =>
        ret (mkConfig (defaults parser) (<[section := <[option := value]> sec]> (sections parser)))
    end.

  (** [with open(self.rcpath, 'w') as writer: parser.write(writer)] *)
Definition parser_write (parser : config) : M Job unit :=
    modify (set_rc parser).

  (** *** Requests *)

  (** [requests.post(url, data=data, files=files, verify=False)] *)
Definition post (url : string) (data : gmap string string) (files : gmap string upload_part)
      : M Job Response :=
    fun s =>
      let s' := emit (EvPost url data files) s in
      match server (trace s) url data files with
      | PostRaises e => (s', inl e)
      | PostResponse r => (s', inr r)
      end.

  (** [req.json()] *)
Definition json_of (req : Response) : M Job (gmap string string) :=
    match json req with
    | Some d => ret d
    | None => raise (ValueError "No JSON object could be decoded")
    end.

  (** [getpass(prompt)] *)
Definition ask_password (prompt : string) : M Job string :=
    modify (emit (EvPrompt prompt)) ;;;
    ret (getpass prompt).

End Primitives.

Section Project.

Context {Job : Type} {env : Env} {ops : JobOps Job}.

  (** [Project.add_file] *)
Definition add_file (self : ref) (path : string) (archive_path : option string) : M Job unit :=
    if negb (isabs path) then
      raise (AzkabanError ("relative path not allowed " +:+ repr path))
    else
      files <- self_files self ;;
      match files !! path with
      | Some registered =>
          if negb (bool_decide (registered = archive_path)) then
            raise (AzkabanError ("inconsistent duplicate " +:+ repr path))
          else ret tt
      | None =>
          found <- exists_ path ;;
          if negb found then
            raise (AzkabanError ("missing file " +:+ repr path))
          else set_file self path archive_path
      end.

  (** [Project.add_job] *)
Definition add_job (self : ref) (name : string) (job : Job) : M Job unit :=
    jobs <- self_jobs self ;;
    if bool_decide (is_Some (jobs !! name)) then
      raise (AzkabanError ("duplicate job name " +:+ repr name))
    else
      set_job self name job ;;;
      call_handler on_add job self name.

  (** [Project.merge_into] *)
Definition merge_into (self project : ref) : M Job unit :=
    jobs <- self_jobs self ;;
    for_each (items jobs) (fun '(name, job) => add_job project name job) ;;;
    files <- self_files self ;;
    for_each (items files) (fun '(path, archive_path) => add_file project path archive_path).

End Project.

(** ** Building and the remote operations *)

Definition nl : string := String (ascii_of_nat 10) EmptyString.

(** The command line as [docopt] returns it, by command. *)
Inductive command : Type :=
| CmdBuild (PATH : string) (overwrite : bool)
| CmdUpload (zip URL user alias : option string)
| CmdRun (FLOW : string) (URL user alias : option string)
| CmdView (JOB : string)
| CmdList (pretty files : bool)
| CmdNone.

Record Args : Type := mkArgs {
  quiet : bool;
  cmd : command
}.

Section Remote.

Context {Job : Type} {env : Env} {ops : JobOps Job}.

  (** [Project.build] *)
Definition build (self : ref) (path : string) (overwrite : bool) : M Job unit :=
    found <- exists_ path ;;
    if found && negb overwrite then
      raise (AzkabanError ("path " +:+ repr path +:+ " already exists"))
    else
      jobs <- self_jobs self ;;
      files <- self_files self ;;
      if negb ((0 <? size jobs)%nat || (0 <? size files)%nat) then
        raise (AzkabanError "building empty project")
      else
        writer <- ZipFile path ;;
        try_finally
          (jobs <- self_jobs self ;;
           for_each (items jobs) (fun '(name, job) =>
             call_handler on_build job self name ;;;
             temppath (fun fpath =>
               modify (fun s => set_fs (<[fpath := Plain (job_text job)]> (fs s)) s) ;;;
               zip_write writer fpath (Some (name +:+ ".job")))) ;;;
           files <- self_files self ;;
           for_each (items files) (fun '(fpath, apath) => zip_write writer fpath apath))
          (zip_close writer) ;;;
        size <- human_size path ;;
        log INFO ("project successfully built (size: " +:+ size +:+ ")").

  (** The request failures that the module translates. *)
Definition translate_request_error {A} (e : exn) : M Job A :=
    match e with
    | ConnectionError => raise (AzkabanError "unable to connect to azkaban server")
    | MissingSchema => raise (AzkabanError "invalid azkaban server url")
    | _ => raise e
    end.

  (** [Project._get_credentials] *)
Definition _get_credentials (self : ref) (url user password alias : option string)
      : M Job (string * string) :=
    found <-
      (if truthy_opt alias then
         let alias := str_opt alias in
         parser <- parser_read (parser_new {[ "user" := EmptyString; "session_id" := EmptyString ]}) ;;
         if negb (has_section parser alias) then
           raise (AzkabanError ("missing alias " +:+ repr alias))
         else if negb (has_option parser alias "url") then
           raise (AzkabanError ("missing url for alias " +:+ repr alias))
         else
           url <- parser_get parser alias "url" ;;
           user <- parser_get parser alias "user" ;;
           session_id <- parser_get parser alias "session_id" ;;
           ret (parser, url, Some user, Some session_id)
       else if truthy_opt url then
         ret (empty_config, str_opt url, user, None)
       else
         raise (ValueError "Either url or alias must be specified.")) ;;
    let '(parser, url, user, session_id) := found in
    let url := rstrip "/" url in
    expired <-
      (if negb (truthy_opt session_id) then ret true
       else
         probe <- post (url +:+ "/manager") {[ "session.id" := str_opt session_id ]} ∅ ;;
         ret (truthy (text probe))) ;;
    if expired : bool then
      let user := or_else user getuser in
      password <-
        (if truthy_opt password then ret (str_opt password)
         else ask_password ("azkaban password for " +:+ user +:+ ": ")) ;;
      req <-
        try_except
          (post url {[ "action" := "login"; "username" := user; "password" := password ]} ∅)
          translate_request_error ;;
      res <- json_of req ;;
      if bool_decide (is_Some (res !! "error")) then
        err <- getitem res "error" ;;
        raise (AzkabanError err)
      else
        session_id <- getitem res "session.id" ;;
        (if truthy_opt alias then
           parser <- parser_set parser (str_opt alias) "session_id" session_id ;;
           parser_write parser
         else ret tt) ;;;
        ret (url, session_id)
    else
      ret (url, str_opt session_id).

  (** [Project.upload] *)
Definition upload (self : ref) (archive : string) (url user password alias : option string)
      : M Job (gmap string string) :=
    cred <- _get_credentials self url user password alias ;;
    let '(url, session_id) := cred in
    req <-
      try_except
        (project <- self_name self ;;
         file <- open_rb archive ;;
         post (url +:+ "/manager")
           {[ "ajax" := "upload"; "session.id" := session_id; "project" := project ]}
           {[ "file" := ("file.zip", file, "application/zip") ]})
        (fun e =>
           match e with
           | IOError _ => raise (AzkabanError ("unable to find archive at " +:+ repr archive))
           | _ => translate_request_error e
           end) ;;
    res <- json_of req ;;
    if bool_decide (is_Some (res !! "error")) then
      err <- getitem res "error" ;;
      raise (AzkabanError err)
    else
      projectId <- getitem res "projectId" ;;
      version <- getitem res "version" ;;
      log INFO ("project successfully uploaded (id: " +:+ projectId +:+ ", version: "
                +:+ version +:+ ")") ;;;
      ret res.

  (** [Project.run] *)
Definition run (self : ref) (flow : string) (url user password alias : option string)
      : M Job (gmap string string) :=
    cred <- _get_credentials self url user password alias ;;
    let '(url, session_id) := cred in
    req <-
      try_except
        (project <- self_name self ;;
         post (url +:+ "/executor")
           {[ "ajax" := "executeFlow"; "session.id" := session_id; "project" := project;
              "flow" := flow ]}
           ∅)
        translate_request_error ;;
    res <- json_of req ;;
    if bool_decide (is_Some (res !! "error")) then
      err <- getitem res "error" ;;
      raise (AzkabanError err)
    else
      execid <- getitem res "execid" ;;
      log INFO ("successfully started flow " +:+ flow +:+ " (execution id: " +:+ execid +:+ ")") ;;;
      execid <- getitem res "execid" ;;
      log INFO ("details at " +:+ url +:+ "/executor?execid=" +:+ execid) ;;;
      ret res.

  (** The body of the [try] block of [Project.main]. *)
Definition dispatch (self : ref) (args : Args) : M Job unit :=
    match cmd args with
    | CmdBuild PATH overwrite => build self PATH overwrite
    | CmdUpload zip URL user alias =>
        if truthy_opt zip then
          upload self (str_opt zip) URL user None alias ;;; ret tt
        else
          temppath (fun path =>
            build self path false ;;;
            upload self path URL user None alias ;;; ret tt)
    | CmdRun FLOW URL user alias =>
        run self FLOW URL user None alias ;;; ret tt
    | CmdView job_name =>
        jobs <- self_jobs self ;;
        match jobs !! job_name with
        | Some job => stdout_write (pretty_print (PDict (items (PStr <$> build_options job))))
        | None => raise (AzkabanError ("missing job " +:+ repr job_name))
        end
    | CmdList true true =>
        files <- self_files self ;;
        for_each (items files) (fun '(path, apath) =>
          let rpath := relpath path in
          size <- human_size path ;;
          let apath := or_else apath (lstrip "/" (abspath path)) in
          stdout_write (rpath +:+ ": " +:+ size +:+ " [" +:+ apath +:+ "]" +:+ nl))
    | CmdList true false =>
        jobs <- self_jobs self ;;
        let grouped :=
          foldl (fun (acc : gmap string (list string)) '(name, job) =>
                   let job_type := default "--" (build_options job !! "type") in
                   let job_deps := default EmptyString (build_options job !! "dependencies") in
                   let info :=
                     if truthy job_deps then name +:+ " [" +:+ job_deps +:+ "]" else name in
                   <[job_type := default [] (acc !! job_type) ++ [info]]> acc)
                ∅ (items jobs) in
        stdout_write (pretty_print (PDict (items ((fun l => PList (PStr <$> l)) <$> grouped))))
    | CmdList false true =>
        files <- self_files self ;;
        for_each (items files) (fun '(path, _) => stdout_write (relpath path +:+ nl))
    | CmdList false false =>
        jobs <- self_jobs self ;;
        for_each (items jobs) (fun '(name, _) => stdout_write (name +:+ nl))
    | CmdNone => ret tt
    end.

  (** [Project.main], after [docopt] has parsed the command line.  The
      module never imports or defines [get_formatted_stream_handler], so the
      call that installs the log handler raises [NameError]. *)
Definition main (self : ref) (args : Args) : M Job unit :=
    (if negb (quiet args) then raise (NameError "get_formatted_stream_handler") else ret tt) ;;;
    try_except (dispatch self args)
      (fun e =>
         match e with
         | AzkabanError msg => log ERROR msg ;;; raise (SystemExit 1)
         | _ => raise e
         end).

End Remote.

(** ** Conditions on the handlers of jobs *)

Section Handlers.

Context {Job : Type}.

Definition handler : Type := Job -> string -> fsys -> Project Job -> Project Job * option exn.

  (** The handler only adds to the project it is called on. *)
Definition handler_monotone (h : handler) : Prop :=
    forall job n f p,
      name (h job n f p).1 = name p /\
      _jobs p ⊆ _jobs (h job n f p).1 /\
      _files p ⊆ _files (h job n f p).1.

  (** The handler raises nothing but the domain error. *)
Definition handler_domain_errors (h : handler) : Prop :=
    forall job n f p e, (h job n f p).2 = Some e -> is_azkaban_error e = true.

  (** The handler returns and leaves the registered files alone. *)
Definition handler_silent (h : handler) : Prop :=
    forall job n f p, (h job n f p).2 = None /\ _files (h job n f p).1 = _files p.

  (** The handler returns and leaves the project as it is, as the handlers
      of a job that defines none. *)
Definition handler_idle (h : handler) : Prop :=
    forall job n f p, h job n f p = (p, None).

End Handlers.

(** ** Vocabulary of the statements

    The rounds of the loops and the blocks of the longer methods under a
    name, and the words in which the properties below are stated. *)

Section JobTerms.

Context {Job : Type} {ops : JobOps Job}.
Implicit Types (s : state Job) (self : ref) (nm : string) (job : Job).

(** The project [self] once [job] is stored under [nm]. *)
Definition with_job s self nm job : Project Job :=
  mkProject (name (heap s self)) (<[nm := job]> (_jobs (heap s self))) (_files (heap s self)).

End JobTerms.

Section MergeTerms.

Context {Job : Type} {ops : JobOps Job}.
Implicit Types (s t : state Job) (self project : ref) (p q : Project Job).

(** [q] holds everything [p] holds. *)
Definition extends p q : Prop :=
  name q = name p /\ _jobs p ⊆ _jobs q /\ _files p ⊆ _files q.

(** A state reached from [s] by work on [project] alone. *)
Definition touches_only project s t : Prop :=
  (forall r, r <> project -> heap t r = heap s r) /\
  fs t = fs s /\ rc t = rc s /\ trace t = trace s.

(** The two rounds of [merge_into]. *)
Definition job_round project : string * Job -> M Job unit :=
  fun '(name, job) => add_job project name job.

Definition file_round project : string * option string -> M Job unit :=
  fun '(path, archive_path) => add_file project path archive_path.

End MergeTerms.

(** A component that is not empty and does not start with a slash. *)
Definition headed (w : string) : Prop :=
  exists c w', w = String c w' /\ Ascii.eqb c "/" = false.

Section BuildTerms.

Context {Job : Type} {env : Env} {ops : JobOps Job}.
Implicit Types (s t : state Job) (self : ref) (path : string) (es : list (string * fobj)).

(** The two rounds of [build]. *)
Definition build_job_round self (writer : string) : string * Job -> M Job unit :=
  fun '(name, job) =>
    call_handler on_build job self name ;;;
    temppath (fun fpath =>
      modify (fun s => set_fs (<[fpath := Plain (job_text job)]> (fs s)) s) ;;;
      zip_write writer fpath (Some (name +:+ ".job"))).

Definition build_file_round (writer : string) : string * option string -> M Job unit :=
  fun '(fpath, apath) => zip_write writer fpath apath.

(** The archive entries of the jobs and the names of the entries of the files. *)
Definition job_entries (l : list (string * Job)) : list (string * fobj) :=
  (fun '(name, job) => (stored_name (name +:+ ".job"), Plain (job_text job))) <$> l.



(** Registered files that all have a name to be stored under. *)
Definition storable (files : gmap string (option string)) : Prop :=
  forall fpath apath,
    files !! fpath = Some apath -> stripped_name (default fpath apath) <> EmptyString.

(** The state of a build under way: the disk as it was found but for the
    archive at the destination, and nothing touched but the disk and the
    project being built. *)
Definition building self path s t : Prop :=
  (exists es, fs t = <[path := ZipArchive es]> (fs s)) /\
  rc t = rc s /\ (forall r, r <> self -> heap t r = heap s r).

End BuildTerms.

Section CredentialTerms.

Context {Job : Type} {env : Env}.
Implicit Types (s : state Job) (self : ref) (url user password alias : option string).

(** The three blocks of [_get_credentials]: the lookup of the alias, the
    probe of the cached session id, and the login with the write-back. *)
Definition lookup_block url user alias
    : M Job (config * string * option string * option string) :=
  if truthy_opt alias then
    let alias := str_opt alias in
    parser <- parser_read (parser_new {[ "user" := EmptyString; "session_id" := EmptyString ]}) ;;
    if negb (has_section parser alias) then
      raise (AzkabanError ("missing alias " +:+ repr alias))
    else if negb (has_option parser alias "url") then
      raise (AzkabanError ("missing url for alias " +:+ repr alias))
    else
      url <- parser_get parser alias "url" ;;
      user <- parser_get parser alias "user" ;;
      session_id <- parser_get parser alias "session_id" ;;
      ret (parser, url, Some user, Some session_id)
  else if truthy_opt url then
    ret (empty_config, str_opt url, user, None)
  else
    raise (ValueError "Either url or alias must be specified.").

Definition probe_block (url : string) (session_id : option string) : M Job bool :=
  if negb (truthy_opt session_id) then ret true
  else
    probe <- post (url +:+ "/manager") {[ "session.id" := str_opt session_id ]} ∅ ;;
    ret (truthy (text probe)).

Definition login_block (url : string) user password alias (parser : config)
    : M Job (string * string) :=
  let user := or_else user getuser in
  password <-
    (if truthy_opt password then ret (str_opt password)
     else ask_password ("azkaban password for " +:+ user +:+ ": ")) ;;
  req <-
    try_except
      (post url {[ "action" := "login"; "username" := user; "password" := password ]} ∅)
      translate_request_error ;;
  res <- json_of req ;;
  if bool_decide (is_Some (res !! "error")) then
    err <- getitem res "error" ;;
    raise (AzkabanError err)
  else
    session_id <- getitem res "session.id" ;;
    (if truthy_opt alias then
       parser <- parser_set parser (str_opt alias) "session_id" session_id ;;
       parser_write parser
     else ret tt) ;;;
    ret (url, session_id).

(** The parser of [_get_credentials] once it has read the credential file. *)
Definition rc_parser s : config :=
  mkConfig (defaults (rc s) ∪ {[ "user" := EmptyString; "session_id" := EmptyString ]})
           (sections (rc s)).

(** The value of an option of a section: its own or the default. *)
Definition option_value (parser : config) (section opt : string) : option string :=
  match sections parser !! section with
  | None => None
  | Some sec =>
      match sec !! opt with
      | Some v => Some v
      | None => defaults parser !! opt
      end
  end.

Definition probe_event (u sid : string) : event :=
  EvPost (u +:+ "/manager") {[ "session.id" := sid ]} ∅.

(** What the caller of a request sees of a failure of the request. *)
Definition translated (e : exn) : exn :=
  match e with
  | ConnectionError => AzkabanError "unable to connect to azkaban server"
  | MissingSchema => AzkabanError "invalid azkaban server url"
  | _ => e
  end.

Definition login_user user : string := or_else user getuser.

Definition login_prompt user : string := "azkaban password for " +:+ login_user user +:+ ": ".

Definition login_password user password : string :=
  if truthy_opt password then str_opt password else getpass (login_prompt user).

(** The state when the login request leaves: the user has been asked for a
    password unless one was supplied. *)
Definition asked user password s : state Job :=
  if truthy_opt password then s else emit (EvPrompt (login_prompt user)) s.

Definition login_data user password : gmap string string :=
  {[ "action" := "login"; "username" := login_user user;
     "password" := login_password user password ]}.

Definition login_event (u : string) user password : event :=
  EvPost u (login_data user password) ∅.

End CredentialTerms.

Section ServerTerms.

Context {Job : Type} {env : Env}.
Implicit Types (s : state Job) (self : ref) (url user password alias : option string).

(** Servers that answer every probe, and answer a login with a failure of
    the connection, a complaint about the URL, or a JSON object that holds
    an [error] or a [session.id]. *)
Definition answers_probes : Prop :=
  forall history u sid,
    exists r, server history (u +:+ "/manager") {[ "session.id" := sid ]} ∅ = PostResponse r.

Definition answers_logins : Prop :=
  forall history u data,
    data !! "action" = Some "login" ->
    match server history u data ∅ with
    | PostRaises e => e = ConnectionError \/ e = MissingSchema
    | PostResponse r =>
        exists res, json r = Some res /\
                    (is_Some (res !! "error") \/ is_Some (res !! "session.id"))
    end.

End ServerTerms.

Section RemoteTerms.

Context {Job : Type} {env : Env}.
Implicit Types (s : state Job) (self : ref) (url user password alias : option string).

Definition upload_data self s (sid : string) : gmap string string :=
  {[ "ajax" := "upload"; "session.id" := sid; "project" := name (heap s self) ]}.

Definition upload_files (o : fobj) : gmap string upload_part :=
  {[ "file" := ("file.zip", o, "application/zip") ]}.

Definition run_data self s (sid flow : string) : gmap string string :=
  {[ "ajax" := "executeFlow"; "session.id" := sid; "project" := name (heap s self);
     "flow" := flow ]}.

(** The state after a run of events. *)
Definition emit_all (evs : list event) s : state Job :=
  mkState (heap s) (fs s) (rc s) (trace s ++ evs).

(** One round of the listing of files with [--pretty]. *)
Definition pretty_file_round : string * option string -> M Job unit :=
  fun '(path, apath) =>
    let rpath := relpath path in
    size <- human_size path ;;
    let apath := or_else apath (lstrip "/" (abspath path)) in
    stdout_write (rpath +:+ ": " +:+ size +:+ " [" +:+ apath +:+ "]" +:+ nl).

Definition is_stdout (e : event) : bool :=
  match e with EvStdout _ => true | _ => false end.

(** The requests that name an action of the server. *)
Definition carries_action (e : event) : bool :=
  match e with
  | EvPost _ data _ => bool_decide (is_Some (data !! "ajax"))
  | _ => false
  end.

(** What [upload] makes of a failure of its request. *)
Definition upload_translated (archive : string) (e : exn) : exn :=
  match e with
  | IOError _ => AzkabanError ("unable to find archive at " +:+ repr archive)
  | _ => translated e
  end.

(** What [upload] makes of an answer. *)
Definition upload_answer (r : Response) s : state Job * (exn + gmap string string) :=
  match json r with
  | None => (s, inl (ValueError "No JSON object could be decoded"))
  | Some res =>
      match res !! "error" with
      | Some err => (s, inl (AzkabanError err))
      | None =>
          match res !! "projectId" with
          | None => (s, inl (KeyError "projectId"))
          | Some projectId =>
              match res !! "version" with
              | None => (s, inl (KeyError "version"))
              | Some version =>
                  (emit (EvLog INFO ("project successfully uploaded (id: " +:+ projectId
                                     +:+ ", version: " +:+ version +:+ ")")) s,
                   inr res)
              end
          end
      end
  end.

(** What [run] makes of an answer. *)
Definition run_answer (u flow : string) (r : Response) s
    : state Job * (exn + gmap string string) :=
  match json r with
  | None => (s, inl (ValueError "No JSON object could be decoded"))
  | Some res =>
      match res !! "error" with
      | Some err => (s, inl (AzkabanError err))
      | None =>
          match res !! "execid" with
          | None => (s, inl (KeyError "execid"))
          | Some execid =>
              (emit (EvLog INFO ("details at " +:+ u +:+ "/executor?execid=" +:+ execid))
                 (emit (EvLog INFO ("successfully started flow " +:+ flow
                                    +:+ " (execution id: " +:+ execid +:+ ")")) s),
               inr res)
          end
      end
  end.

End RemoteTerms.

(** ** A concrete setting

    Jobs that are a table of options and have handlers that do nothing, a
    server that accepts every login, a user who types a password, and a
    disk on which every directory is there but [/nodir]. *)
Module Demo.

Record PlainJob : Type := mkJob { options : gmap string string }.

Definition plain_text (j : PlainJob) : string :=
    foldr (fun '(k, v) acc => k +:+ "=" +:+ v +:+ nl +:+ acc) EmptyString (items (options j)).

#[global] Instance plain_ops : JobOps PlainJob :=
    {| on_add := fun _ _ _ p => (p, None);
       on_build := fun _ _ _ p => (p, None);
       job_text := plain_text;
       build_options := options |}.

  (** Logins get a session id, every other request is answered by [body]
      and by the JSON object [answer]. *)
Definition demo_server (body : string) (answer : option (gmap string string))
      (history : list event) (url : string) (data : gmap string string)
      (files : gmap string upload_part) : post_result :=
    if bool_decide (data !! "action" = Some "login") then
      PostResponse (mkResponse "{}" (Some {[ "session.id" := "tok-1" ]}))
    else PostResponse (mkResponse body answer).

Definition demo_env (body : string) (answer : option (gmap string string)) : Env :=
    {| getuser := "alice";
       getpass := fun _ => "secret";
       server := demo_server body answer;
       mkstemp := fun f => fresh (dom f);
       mkstemp_fresh := fun f => proj1 (not_elem_of_dom f (fresh (dom f))) (is_fresh (dom f));
       can_create := fun _ p => negb (String.prefix "/nodir/" p);
       getsize := fun _ => 0%N;
       relpath := fun p => p;
       abspath := fun p => p;
       human_readable := fun _ => "0B";
       pretty_print := fun _ => EmptyString |}.

Definition noop : PlainJob := mkJob {[ "type" := "noop" ]}.

  (** A machine with the project [p] at reference 0 and [q] elsewhere. *)
Definition machine (p q : Project PlainJob) (f : fsys) (c : config) : state PlainJob :=
    mkState (fun r => if decide (r = 0) then p else q) f c [].

(** Two projects: [foo] holds a file, [bar] holds a job. *)
Definition foo : Project PlainJob := mkProject "foo" ∅ {[ "/data/a.txt" := None ]}.
Definition bar : Project PlainJob := mkProject "bar" {[ "j1" := noop ]} ∅.

Definition disk : fsys := {[ "/data/a.txt" := Plain "hello" ]}.

(** The two projects on a disk that holds [foo]'s file, and on a disk
    from which the file is gone. *)
Definition with_file : state PlainJob := machine foo bar disk empty_config.
Definition without_file : state PlainJob := machine foo bar ∅ empty_config.

(** A target [qux] that already holds the job [j2] and a source [baz] with
    the jobs [j1] and [j2]. *)
Definition qux : Project PlainJob := mkProject "qux" {[ "j2" := noop ]} ∅.
Definition baz : Project PlainJob := mkProject "baz" {[ "j1" := noop; "j2" := noop ]} ∅.
Definition clash : state PlainJob := machine qux baz disk empty_config.

(** A project with a job and a file, on the disk that holds the file. *)
Definition full : Project PlainJob :=
    mkProject "full" {[ "j1" := noop ]} {[ "/data/a.txt" := Some "a.txt" ]}.
Definition ready : state PlainJob := machine full bar disk empty_config.

(** A project with a job and a file that has no archive path. *)
Definition rooted : state PlainJob :=
    machine (mkProject "rooted" {[ "j1" := noop ]} {[ "/data/a.txt" := None ]}) bar disk
            empty_config.

(** [full] beside [qux], which holds another job and no file. *)
Definition mergeable : state PlainJob := machine full qux disk empty_config.

(** A built archive on disk, and a credential file with the alias [prod]. *)
Definition packed : state PlainJob :=
    machine foo bar {[ "/out.zip" := Plain "PK" ]} empty_config.

Definition aliased : state PlainJob :=
    machine foo bar ∅
      (mkConfig ∅ {[ "prod" := {[ "url" := "http://az/"; "user" := "bob" ]} ]}).

(** A server that answers with what the operations expect, and one that
    answers with an empty object. *)
Definition good_env : Env :=
    demo_env EmptyString (Some {[ "projectId" := "7"; "version" := "1"; "execid" := "42" ]}).

Definition bare_env : Env := demo_env EmptyString (Some ∅).

(** A server that answers in HTML, and one that accepts logins and is
    out of reach for everything else. *)
Definition html_env : Env := demo_env "<html>" None.

Definition down_server (history : list event) (url : string) (data : gmap string string)
      (files : gmap string upload_part) : post_result :=
    if bool_decide (data !! "action" = Some "login") then
      PostResponse (mkResponse "{}" (Some {[ "session.id" := "tok-1" ]}))
    else PostRaises ConnectionError.

Definition down_env : Env :=
    {| getuser := "alice";
       getpass := fun _ => "secret";
       server := down_server;
       mkstemp := fun f => fresh (dom f);
       mkstemp_fresh := fun f => proj1 (not_elem_of_dom f (fresh (dom f))) (is_fresh (dom f));
       can_create := fun _ p => negb (String.prefix "/nodir/" p);
       getsize := fun _ => 0%N;
       relpath := fun p => p;
       abspath := fun p => p;
       human_readable := fun _ => "0B";
       pretty_print := fun _ => EmptyString |}.

End Demo.

(** * Properties *)

(** ** The monad *)

Section MonadFacts.

Context {Job : Type}.

Lemma for_each_cons {A} (x : A) (l : list A) (body : A -> M Job unit) (s : state Job) :
  for_each (x :: l) body s =
  match body x s with
  | (s1, inr _) => for_each l body s1
  | (s1, inl e) => (s1, inl e)
  end.
Proof. reflexivity. Qed.

Lemma for_each_app {A} (l1 l2 : list A) (body : A -> M Job unit) (s : state Job) :
  for_each (l1 ++ l2) body s =
  match for_each l1 body s with
  | (s1, inr _) => for_each l2 body s1
  | (s1, inl e) => (s1, inl e)
  end.
Proof.
  revert s. induction l1 as [|x l1 IH]; intros s; simpl.
  - reflexivity.
  - unfold bind. destruct (body x s) as [s1 [e|[]]]; [reflexivity|]. apply IH.
Qed.

(** A loop preserves what every round preserves, whether it returns or raises. *)
Lemma for_each_invariant {A} (P : state Job -> Prop) (l : list A) (body : A -> M Job unit) :
  (forall x s, x ∈ l -> P s -> P (body x s).1) ->
  forall s, P s -> P (for_each l body s).1.
Proof.
  induction l as [|x l IH]; intros Hbody s HP; simpl; [exact HP|].
  unfold bind. pose proof (Hbody x s ltac:(left) HP) as H1.
  destruct (body x s) as [s1 [e|[]]]; simpl in *; [exact H1|].
  apply IH; [|exact H1]. intros y s' Hy. apply Hbody. by right.
Qed.

(** A loop that returns has run every round to its end. *)
Lemma for_each_returns {A} (l : list A) (body : A -> M Job unit) (s s' : state Job) :
  for_each l body s = (s', inr tt) ->
  forall l1 x l2, l = l1 ++ x :: l2 ->
    exists s1 s2, for_each l1 body s = (s1, inr tt) /\ body x s1 = (s2, inr tt) /\
                  for_each l2 body s2 = (s', inr tt).
Proof.
  intros Hl l1 x l2 ->. rewrite for_each_app in Hl.
  destruct (for_each l1 body s) as [s1 [e|[]]]; [discriminate|].
  simpl in Hl. unfold bind in Hl.
  destruct (body x s1) as [s2 [e|[]]] eqn:Hx; [discriminate|]. by exists s1, s2.
Qed.

(** A loop raises only what a round raises. *)
Lemma for_each_raises {A} (Q : exn -> Prop) (l : list A) (body : A -> M Job unit) :
  (forall x s s' e, x ∈ l -> body x s = (s', inl e) -> Q e) ->
  forall s s' e, for_each l body s = (s', inl e) -> Q e.
Proof.
  induction l as [|x l IH]; intros Hbody s s' e; simpl; [discriminate|].
  unfold bind. destruct (body x s) as [s1 [e1|[]]] eqn:Hx.
  - intros [= <- <-]. eapply Hbody; [left|exact Hx].
  - apply IH. intros y t t' e' Hy. apply Hbody. by right.
Qed.

End MonadFacts.

(** ** Registering files *)

Section AddFile.

Context {Job : Type}.
Implicit Types (s : state Job) (self : ref) (path : string) (ap : option string).

Lemma add_file_relative s self path ap :
  isabs path = false ->
  add_file self path ap s = (s, inl (AzkabanError ("relative path not allowed " +:+ repr path))).
Proof. intros H. unfold add_file. by rewrite H. Qed.

Lemma add_file_inconsistent s self path ap registered :
  isabs path = true ->
  _files (heap s self) !! path = Some registered ->
  registered <> ap ->
  add_file self path ap s = (s, inl (AzkabanError ("inconsistent duplicate " +:+ repr path))).
Proof.
  intros Habs Hreg Hne. unfold add_file, bind, self_files, gets. rewrite Habs. simpl.
  rewrite Hreg. by rewrite bool_decide_eq_false_2.
Qed.

Lemma add_file_missing s self path ap :
  isabs path = true ->
  _files (heap s self) !! path = None ->
  fs s !! path = None ->
  add_file self path ap s = (s, inl (AzkabanError ("missing file " +:+ repr path))).
Proof.
  intros Habs Hreg Hfs. unfold add_file, bind, self_files, exists_, gets. rewrite Habs. simpl.
  rewrite Hreg. simpl. rewrite bool_decide_eq_false_2; [done|].
  rewrite Hfs. by intros [? ?].
Qed.

Lemma add_file_registered s self path ap :
  isabs path = true ->
  _files (heap s self) !! path = Some ap ->
  add_file self path ap s = (s, inr tt).
Proof.
  intros Habs Hreg. unfold add_file, bind, self_files, gets. rewrite Habs. simpl.
  rewrite Hreg. by rewrite bool_decide_eq_true_2.
Qed.

Lemma add_file_new s self path ap :
  isabs path = true ->
  _files (heap s self) !! path = None ->
  is_Some (fs s !! path) ->
  add_file self path ap s =
  (set_heap self (mkProject (name (heap s self)) (_jobs (heap s self))
                            (<[path := ap]> (_files (heap s self)))) s, inr tt).
Proof.
  intros Habs Hreg Hfs. unfold add_file, bind, self_files, exists_, gets. rewrite Habs. simpl.
  rewrite Hreg. simpl. by rewrite bool_decide_eq_true_2.
Qed.

(** All the ways a call of [add_file] can end. *)
Lemma add_file_cases s self path ap s' r :
  add_file self path ap s = (s', r) ->
  (s' = s /\ exists msg, r = inl (AzkabanError msg)) \/
  (s' = s /\ r = inr tt /\ isabs path = true /\ _files (heap s self) !! path = Some ap) \/
  (r = inr tt /\ isabs path = true /\ _files (heap s self) !! path = None /\
   is_Some (fs s !! path) /\
   s' = set_heap self (mkProject (name (heap s self)) (_jobs (heap s self))
                                 (<[path := ap]> (_files (heap s self)))) s).
Proof.
  intros Hrun. destruct (isabs path) eqn:Habs.
  - destruct (_files (heap s self) !! path) as [registered|] eqn:Hreg.
    + destruct (decide (registered = ap)) as [->|Hne].
      * rewrite add_file_registered in Hrun by done. injection Hrun as <- <-. right; left. done.
      * rewrite (add_file_inconsistent _ _ _ _ registered) in Hrun by done.
        injection Hrun as <- <-. left. eauto.
    + destruct (fs s !! path) as [o|] eqn:Hfs.
      * rewrite add_file_new in Hrun by eauto. injection Hrun as <- <-.
        right; right. repeat split; eauto.
      * rewrite add_file_missing in Hrun by done. injection Hrun as <- <-. left. eauto.
  - rewrite add_file_relative in Hrun by done. injection Hrun as <- <-. left. eauto.
Qed.

End AddFile.

Section AddFileClaims.

Context {Job : Type}.
Implicit Types (s : state Job) (self : ref) (path : string) (ap : option string).

(** C3, amended: [add_file] raises the domain error, and changes nothing,
    when the path is relative, when the path is registered with another
    archive destination, and when the path is not registered and does not
    exist on disk. *)
Theorem add_file_raises s self path ap :
  isabs path = false \/
  (exists registered, _files (heap s self) !! path = Some registered /\ registered <> ap) \/
  (_files (heap s self) !! path = None /\ fs s !! path = None) ->
  exists msg, add_file self path ap s = (s, inl (AzkabanError msg)).
Proof.
  intros Hcase. destruct (isabs path) eqn:Habs.
  - destruct Hcase as [?|[(registered & Hreg & Hne)|[Hreg Hfs]]]; [done| |].
    + eexists. by eapply add_file_inconsistent.
    + eexists. by apply add_file_missing.
  - eexists. by apply add_file_relative.
Qed.

(** C9: once [add_file path ap] has returned, calling it again with the same
    arguments returns and changes nothing, whatever has become of the disk
    in between: the path is not looked up on disk a second time. *)
Theorem add_file_idempotent s self path ap s1 (f : fsys) :
  add_file self path ap s = (s1, inr tt) ->
  add_file self path ap (set_fs f s1) = (set_fs f s1, inr tt).
Proof.
  intros Hfirst. apply add_file_cases in Hfirst.
  destruct Hfirst as [[_ [msg Hr]]|[(-> & _ & Habs & Hreg)|(_ & Habs & _ & _ & ->)]].
  - discriminate.
  - by apply add_file_registered.
  - apply add_file_registered; [done|]. simpl.
    rewrite decide_True by done. simpl. apply lookup_insert_eq.
Qed.

End AddFileClaims.

(** C3 as stated does not hold: a path that is registered with the same
    destination is accepted although it no longer exists on disk. *)
Lemma add_file_claim_fails :
  ~ (forall (s : state Demo.PlainJob) (self : ref) (path : string) (ap : option string),
       (isabs path = false ->
        exists msg, (add_file self path ap s).2 = inl (AzkabanError msg)) /\
       ((exists registered, _files (heap s self) !! path = Some registered /\ registered <> ap) ->
        exists msg, (add_file self path ap s).2 = inl (AzkabanError msg)) /\
       (fs s !! path = None ->
        exists msg, (add_file self path ap s).2 = inl (AzkabanError msg))).
Proof.
  intros Hclaim.
  destruct (Hclaim Demo.without_file 0 "/data/a.txt" None) as (_ & _ & Hmissing).
  destruct (Hmissing eq_refl) as [msg Hmsg].
  vm_compute in Hmsg. discriminate.
Qed.

Lemma add_file_raises_witness :
  exists msg, add_file 0 "/data/b.txt" None Demo.with_file
              = (Demo.with_file, inl (AzkabanError msg)).
Proof.
  apply add_file_raises. right. right. split; reflexivity.
Defined.

Lemma add_file_idempotent_witness :
  let registered := (add_file 1 "/data/a.txt" (Some "a.txt") Demo.with_file).1 in
  add_file 1 "/data/a.txt" (Some "a.txt") (set_fs ∅ registered) = (set_fs ∅ registered, inr tt).
Proof.
  intros registered.
  apply (add_file_idempotent Demo.with_file 1 "/data/a.txt" (Some "a.txt") registered ∅).
  vm_compute. reflexivity.
Defined.

(** ** Registering jobs *)

Section AddJob.

Context {Job : Type} {ops : JobOps Job}.
Implicit Types (s : state Job) (self : ref) (nm : string) (job : Job).

Lemma add_job_duplicate s self nm job :
  is_Some (_jobs (heap s self) !! nm) ->
  add_job self nm job s = (s, inl (AzkabanError ("duplicate job name " +:+ repr nm))).
Proof.
  intros Hdup. unfold add_job, bind, self_jobs, gets. simpl.
  by rewrite bool_decide_eq_true_2.
Qed.

Lemma add_job_new s self nm job :
  _jobs (heap s self) !! nm = None ->
  add_job self nm job s =
  (set_heap self (on_add job nm (fs s) (with_job s self nm job)).1
            (set_heap self (with_job s self nm job) s),
   match (on_add job nm (fs s) (with_job s self nm job)).2 with
   | None => inr tt
   | Some e => inl e
   end).
Proof.
  intros Hnew. unfold add_job, bind, self_jobs, gets, set_job, modify, call_handler. simpl.
  rewrite bool_decide_eq_false_2 by (rewrite Hnew; by intros [? ?]).
  rewrite decide_True by done. fold (with_job s self nm job).
  by destruct (on_add job nm (fs s) (with_job s self nm job)) as [p' [e|]].
Qed.

(** What a call of [add_job] leaves outside the project it is called on. *)
Lemma add_job_frame s self nm job :
  let s' := (add_job self nm job s).1 in
  (forall r, r <> self -> heap s' r = heap s r) /\
  fs s' = fs s /\ rc s' = rc s /\ trace s' = trace s.
Proof.
  destruct (_jobs (heap s self) !! nm) as [j|] eqn:Hnm.
  - rewrite add_job_duplicate by eauto. done.
  - rewrite add_job_new by done. simpl. split; [|done].
    intros r Hr. by rewrite !decide_False by done.
Qed.

(** Under a handler that only adds, [add_job] only adds. *)
Lemma add_job_monotone s self nm job :
  handler_monotone on_add ->
  let s' := (add_job self nm job s).1 in
  name (heap s' self) = name (heap s self) /\
  _jobs (heap s self) ⊆ _jobs (heap s' self) /\
  _files (heap s self) ⊆ _files (heap s' self).
Proof.
  intros Hmono. destruct (_jobs (heap s self) !! nm) as [j|] eqn:Hnm.
  - rewrite add_job_duplicate by eauto. done.
  - rewrite add_job_new by done. simpl. rewrite decide_True by done.
    destruct (Hmono job nm (fs s) (with_job s self nm job)) as (Hn & Hj & Hf).
    split; [exact Hn|]. split; [|exact Hf].
    etrans; [|exact Hj]. simpl. by apply insert_subseteq.
Qed.

End AddJob.

Section AddJobClaims.

Context {Job : Type} {ops : JobOps Job}.
Implicit Types (s : state Job) (self : ref) (nm : string) (job : Job).

(** C4: [add_job] raises the domain error, and changes nothing, when a job
    of that name is present.  Otherwise it stores the job under the name,
    calls the [on_add] handler of the job on the project so extended, and
    returns unless the handler raises.  With handlers that only add, the job
    is registered when the call ends and no call rebinds a name that is
    taken: a name stands for one job for as long as it is in the project. *)
Theorem add_job_unique s self nm job s' r :
  add_job self nm job s = (s', r) ->
  (is_Some (_jobs (heap s self) !! nm) ->
   s' = s /\ r = inl (AzkabanError ("duplicate job name " +:+ repr nm))) /\
  (_jobs (heap s self) !! nm = None ->
   _jobs (with_job s self nm job) !! nm = Some job /\
   heap s' self = (on_add job nm (fs s) (with_job s self nm job)).1 /\
   r = match (on_add job nm (fs s) (with_job s self nm job)).2 with
       | None => inr tt
       | Some e => inl e
       end) /\
  (handler_monotone on_add ->
   (_jobs (heap s self) !! nm = None -> _jobs (heap s' self) !! nm = Some job) /\
   (forall n j, _jobs (heap s self) !! n = Some j -> _jobs (heap s' self) !! n = Some j)) /\
  NoDup (items (_jobs (heap s' self))).*1.
Proof.
  intros Hrun. split; [|split; [|split]].
  - intros Hdup. rewrite add_job_duplicate in Hrun by done. by injection Hrun as <- <-.
  - intros Hnew. rewrite add_job_new in Hrun by done. injection Hrun as <- <-.
    split; [apply lookup_insert_eq|]. split; [|done]. simpl. by rewrite decide_True.
  - intros Hmono.
    pose proof (add_job_monotone s self nm job Hmono) as (_ & Hj & _).
    rewrite Hrun in Hj. simpl in Hj. split.
    + intros Hnew. rewrite add_job_new in Hrun by done. injection Hrun as <- _.
      simpl. rewrite decide_True by done.
      destruct (Hmono job nm (fs s) (with_job s self nm job)) as (_ & Hkept & _).
      eapply lookup_weaken; [|exact Hkept]. apply lookup_insert_eq.
    + intros n j Hn. by eapply lookup_weaken.
  - apply NoDup_fst_map_to_list.
Qed.

End AddJobClaims.

Lemma plain_on_add_monotone : handler_monotone (on_add (Job := Demo.PlainJob)).
Proof. intros job n f p. done. Qed.

Lemma add_job_unique_witness :
  _jobs (heap (add_job 0 "j2" Demo.noop Demo.with_file).1 0) !! "j2" = Some Demo.noop.
Proof.
  assert (add_job 0 "j2" Demo.noop Demo.with_file
          = ((add_job 0 "j2" Demo.noop Demo.with_file).1, inr tt)) as Hrun
    by (vm_compute; reflexivity).
  destruct (add_job_unique Demo.with_file 0 "j2" Demo.noop _ _ Hrun)
    as (_ & _ & Hkept & _).
  destruct (Hkept plain_on_add_monotone) as [Hnew _].
  apply Hnew. reflexivity.
Defined.

(** ** Merging projects *)

Section Merge.

Context {Job : Type} {ops : JobOps Job}.
Implicit Types (s t : state Job) (self project : ref) (p q : Project Job).

Lemma extends_refl p : extends p p.
Proof. done. Qed.

Lemma extends_trans p q u : extends p q -> extends q u -> extends p u.
Proof.
  intros (Hn1 & Hj1 & Hf1) (Hn2 & Hj2 & Hf2). repeat split.
  - congruence.
  - by etrans.
  - by etrans.
Qed.

Lemma touches_only_refl project s : touches_only project s s.
Proof. done. Qed.

Lemma touches_only_trans project s t u :
  touches_only project s t -> touches_only project t u -> touches_only project s u.
Proof.
  intros (Hh1 & Hf1 & Hr1 & Ht1) (Hh2 & Hf2 & Hr2 & Ht2). repeat split; try congruence.
  intros r Hr. rewrite Hh2, Hh1; done.
Qed.

Lemma merge_into_rounds self project s :
  merge_into self project s =
  match for_each (items (_jobs (heap s self))) (job_round project) s with
  | (s1, inr _) => for_each (items (_files (heap s1 self))) (file_round project) s1
  | (s1, inl e) => (s1, inl e)
  end.
Proof. reflexivity. Qed.

Lemma add_file_touches project path ap s :
  touches_only project s (add_file project path ap s).1.
Proof.
  destruct (add_file project path ap s) as [s' r] eqn:Hrun. simpl.
  apply add_file_cases in Hrun.
  destruct Hrun as [[-> _]|[(-> & _)|(_ & _ & _ & _ & ->)]]; try done.
  split; [|done]. intros r' Hr'. simpl. by rewrite decide_False.
Qed.

Lemma add_file_extends project path ap s :
  let s' := (add_file project path ap s).1 in
  extends (heap s project) (heap s' project) /\ _jobs (heap s' project) = _jobs (heap s project).
Proof.
  destruct (add_file project path ap s) as [s' r] eqn:Hrun. simpl.
  apply add_file_cases in Hrun.
  destruct Hrun as [[-> _]|[(-> & _)|(_ & _ & Hnew & _ & ->)]]; try done.
  simpl. rewrite decide_True by done. simpl. repeat split; try done.
  by apply insert_subseteq.
Qed.

Lemma add_job_touches project nm job s :
  touches_only project s (add_job project nm job s).1.
Proof. apply add_job_frame. Qed.

Section Loops.

Variable project : ref.

Lemma job_rounds_touch (l : list (string * Job)) s :
  touches_only project s (for_each l (job_round project) s).1.
Proof.
  apply (for_each_invariant (touches_only project s)); [|done].
  intros [nm job] t _ Ht. eapply touches_only_trans; [exact Ht|]. apply add_job_touches.
Qed.

Lemma file_rounds_touch (l : list (string * option string)) s :
  touches_only project s (for_each l (file_round project) s).1.
Proof.
  apply (for_each_invariant (touches_only project s)); [|done].
  intros [path ap] t _ Ht. eapply touches_only_trans; [exact Ht|]. apply add_file_touches.
Qed.

Lemma job_rounds_extend (l : list (string * Job)) s :
  handler_monotone on_add ->
  extends (heap s project) (heap (for_each l (job_round project) s).1 project).
Proof.
  intros Hmono.
  apply (for_each_invariant (fun t => extends (heap s project) (heap t project))); [|done].
  intros [nm job] t _ Ht. eapply extends_trans; [exact Ht|]. by apply add_job_monotone.
Qed.

Lemma file_rounds_extend (l : list (string * option string)) s :
  let s' := (for_each l (file_round project) s).1 in
  extends (heap s project) (heap s' project) /\ _jobs (heap s' project) = _jobs (heap s project).
Proof.
  apply (for_each_invariant
           (fun t => extends (heap s project) (heap t project) /\
                     _jobs (heap t project) = _jobs (heap s project))); [|done].
  intros [path ap] t _ [Ht Hj].
  destruct (add_file_extends project path ap t) as [He Hj']. split.
  - eapply extends_trans; [exact Ht|exact He].
  - simpl. congruence.
Qed.

(** Rounds that all return found every name free and left every job in. *)
Lemma job_rounds_return (l : list (string * Job)) s s' :
  handler_monotone on_add ->
  for_each l (job_round project) s = (s', inr tt) ->
  forall nm job, (nm, job) ∈ l ->
    _jobs (heap s project) !! nm = None /\ _jobs (heap s' project) !! nm = Some job.
Proof.
  intros Hmono. revert s. induction l as [|[n j] l IH]; intros s Hrun nm job Hin.
  - by apply elem_of_nil in Hin.
  - simpl in Hrun. unfold bind in Hrun.
    destruct (add_job project n j s) as [s1 [e|[]]] eqn:Hadd; [discriminate|].
    pose proof (add_job_monotone s project n j Hmono) as (_ & Hjobs & _).
    rewrite Hadd in Hjobs. simpl in Hjobs.
    pose proof (job_rounds_extend l s1 Hmono) as (_ & Hrest & _).
    rewrite Hrun in Hrest. simpl in Hrest.
    apply elem_of_cons in Hin as [[= -> ->]|Hin].
    + destruct (_jobs (heap s project) !! n) as [j0|] eqn:Hn.
      * rewrite add_job_duplicate in Hadd by eauto. discriminate.
      * split; [done|]. eapply lookup_weaken; [|exact Hrest].
        rewrite add_job_new in Hadd by done. injection Hadd as <- _.
        simpl. rewrite decide_True by done.
        destruct (Hmono j n (fs s) (with_job s project n j)) as (_ & Hkept & _).
        eapply lookup_weaken; [|exact Hkept]. apply lookup_insert_eq.
    + destruct (IH s1 Hrun nm job Hin) as [Hfree Hthere]. split; [|done].
      destruct (_jobs (heap s project) !! nm) as [j0|] eqn:Hnm; [|done].
      eapply lookup_weaken in Hnm; [|exact Hjobs]. congruence.
Qed.

Lemma file_rounds_return (l : list (string * option string)) s s' :
  for_each l (file_round project) s = (s', inr tt) ->
  forall path ap, (path, ap) ∈ l ->
    (_files (heap s project) !! path = None \/ _files (heap s project) !! path = Some ap) /\
    _files (heap s' project) !! path = Some ap.
Proof.
  revert s. induction l as [|[f a] l IH]; intros s Hrun path ap Hin.
  - by apply elem_of_nil in Hin.
  - simpl in Hrun. unfold bind in Hrun.
    destruct (add_file project f a s) as [s1 [e|[]]] eqn:Hadd; [discriminate|].
    pose proof (add_file_extends project f a s) as [(_ & _ & Hfiles) _].
    rewrite Hadd in Hfiles. simpl in Hfiles.
    pose proof (file_rounds_extend l s1) as [(_ & _ & Hrest) _].
    rewrite Hrun in Hrest. simpl in Hrest.
    apply elem_of_cons in Hin as [[= -> ->]|Hin].
    + apply add_file_cases in Hadd.
      destruct Hadd as [[_ [msg ?]]|[(-> & _ & _ & Hreg)|(_ & _ & Hnew & _ & ->)]]; [done| |].
      * split; [by right|]. by eapply lookup_weaken.
      * split; [by left|]. eapply lookup_weaken; [|exact Hrest].
        simpl. rewrite decide_True by done. simpl. apply lookup_insert_eq.
    + destruct (IH s1 Hrun path ap Hin) as [Hfree Hthere]. split; [|done].
      destruct (_files (heap s project) !! path) as [a0|] eqn:Hp; [|by left].
      right. eapply lookup_weaken in Hp; [|exact Hfiles]. destruct Hfree; congruence.
Qed.

(** What the rounds raise. *)
Lemma job_rounds_raise (l : list (string * Job)) s s' e :
  handler_domain_errors on_add ->
  for_each l (job_round project) s = (s', inl e) ->
  exists msg, e = AzkabanError msg.
Proof.
  intros Hdom. revert s s' e.
  apply (for_each_raises (fun e => exists msg, e = AzkabanError msg)).
  intros [nm job] s s' e _ Hadd. simpl in Hadd.
  destruct (_jobs (heap s project) !! nm) as [j0|] eqn:Hnm.
  - rewrite add_job_duplicate in Hadd by eauto. injection Hadd as _ <-. eauto.
  - rewrite add_job_new in Hadd by done. injection Hadd as _ Hr.
    destruct (on_add job nm (fs s) (with_job s project nm job)).2 as [e0|] eqn:He; [|done].
    injection Hr as ->. apply Hdom in He. destruct e; try done. eauto.
Qed.

Lemma file_rounds_raise (l : list (string * option string)) s s' e :
  for_each l (file_round project) s = (s', inl e) ->
  exists msg, e = AzkabanError msg.
Proof.
  revert s s' e. apply (for_each_raises (fun e => exists msg, e = AzkabanError msg)).
  intros [path ap] s s' e _ Hadd. simpl in Hadd. apply add_file_cases in Hadd.
  destruct Hadd as [[_ [msg [= ->]]]|[(_ & ? & _)|(? & _)]]; [eauto|done..].
Qed.

End Loops.

(** The rounds never change the project whose entries they copy, not even
    when it is the project they add to. *)
Lemma job_rounds_source self project s :
  heap (for_each (items (_jobs (heap s self))) (job_round project) s).1 self = heap s self.
Proof.
  destruct (decide (self = project)) as [<-|Hne].
  - destruct (items (_jobs (heap s self))) as [|[nm job] l] eqn:Hitems; [done|].
    assert (_jobs (heap s self) !! nm = Some job) as Hnm.
    { apply elem_of_map_to_list. unfold items in Hitems. rewrite Hitems. left. }
    simpl. unfold bind. rewrite add_job_duplicate by eauto. done.
  - by apply job_rounds_touch.
Qed.

Lemma file_rounds_source self project s :
  heap (for_each (items (_files (heap s self))) (file_round project) s).1 self = heap s self.
Proof.
  destruct (decide (self = project)) as [<-|Hne].
  - enough ((for_each (items (_files (heap s self))) (file_round self) s).1 = s) as -> by done.
    apply (for_each_invariant (fun t => t = s)); [|done].
    intros [path ap] t Hin ->. apply elem_of_map_to_list in Hin. simpl.
    destruct (add_file self path ap s) as [s' r] eqn:Hadd. apply add_file_cases in Hadd.
    destruct Hadd as [[-> _]|[(-> & _)|(_ & _ & Hnew & _)]]; [done..|congruence].
  - by apply file_rounds_touch.
Qed.

(** With handlers that do nothing, rounds over names that are free return;
    they leave the files of the target and the disk alone. *)
Lemma job_rounds_run project (l : list (string * Job)) s :
  handler_idle on_add ->
  NoDup l.*1 ->
  (forall nm job, (nm, job) ∈ l -> _jobs (heap s project) !! nm = None) ->
  exists s',
    for_each l (job_round project) s = (s', inr tt) /\
    _files (heap s' project) = _files (heap s project) /\ fs s' = fs s.
Proof.
  intros Hidle. revert s. induction l as [|[nm job] l IH]; intros s Hnodup Hfree.
  - by exists s.
  - rewrite fmap_cons in Hnodup. apply NoDup_cons in Hnodup as [Hfresh Hnodup].
    rewrite for_each_cons. unfold job_round at 1.
    rewrite add_job_new by (apply (Hfree nm job); left). rewrite Hidle. cbv beta iota. simpl fst.
    set (s1 := set_heap project _ _).
    assert (heap s1 project = with_job s project nm job) as Hs1.
    { unfold s1. simpl. by rewrite decide_True. }
    destruct (IH s1 Hnodup) as (s' & Hrun & Hfiles & Hfs).
    + intros n j Hin. rewrite Hs1. simpl. rewrite lookup_insert_ne.
      * apply (Hfree n j). by right.
      * intros ->. apply Hfresh. apply list_elem_of_fmap. by exists (n, j).
    + exists s'. split; [done|]. by rewrite Hfiles, Hfs, Hs1.
Qed.

(** Rounds over absolute paths that the target holds with the same
    destination, or does not hold and finds on disk, return. *)
Lemma file_rounds_run project (l : list (string * option string)) s :
  NoDup l.*1 ->
  (forall path ap, (path, ap) ∈ l ->
     isabs path = true /\
     (_files (heap s project) !! path = Some ap \/
      (_files (heap s project) !! path = None /\ is_Some (fs s !! path)))) ->
  exists s', for_each l (file_round project) s = (s', inr tt).
Proof.
  revert s. induction l as [|[path ap] l IH]; intros s Hnodup Hok.
  - by exists s.
  - rewrite fmap_cons in Hnodup. apply NoDup_cons in Hnodup as [Hfresh Hnodup].
    rewrite for_each_cons. unfold file_round at 1.
    destruct (Hok path ap) as [Habs [Hreg|[Hnew Hdisk]]]; [left| |].
    + rewrite add_file_registered by done. apply IH; [done|].
      intros p a Hin. apply Hok. by right.
    + rewrite add_file_new by done. apply IH; [done|].
      intros p a Hin. simpl. rewrite decide_True by done. simpl.
      rewrite lookup_insert_ne.
      * apply Hok. by right.
      * intros ->. apply Hfresh. apply list_elem_of_fmap. by exists (p, a).
Qed.

(** A merge without conflicts returns. *)
Lemma merge_into_returns self project s :
  handler_idle on_add ->
  (forall nm, is_Some (_jobs (heap s self) !! nm) -> _jobs (heap s project) !! nm = None) ->
  (forall path ap,
     _files (heap s self) !! path = Some ap ->
     isabs path = true /\
     (_files (heap s project) !! path = Some ap \/
      (_files (heap s project) !! path = None /\ is_Some (fs s !! path)))) ->
  (merge_into self project s).2 = inr tt.
Proof.
  intros Hidle Hjobs Hfiles. rewrite merge_into_rounds.
  pose proof (job_rounds_source self project s) as Hsrc.
  destruct (job_rounds_run project (items (_jobs (heap s self))) s Hidle)
    as (s1 & Hrun1 & Hkept & Hfs).
  { apply NoDup_fst_map_to_list. }
  { intros nm job Hin. apply elem_of_map_to_list in Hin. apply Hjobs. eauto. }
  rewrite Hrun1 in Hsrc |- *. simpl in Hsrc. rewrite Hsrc.
  destruct (file_rounds_run project (items (_files (heap s self))) s1) as [s2 Hrun2].
  { apply NoDup_fst_map_to_list. }
  { intros path ap Hin. apply elem_of_map_to_list in Hin. rewrite Hkept, Hfs. by apply Hfiles. }
  by rewrite Hrun2.
Qed.

End Merge.

Section MergeClaims.

Context {Job : Type} {ops : JobOps Job}.
Implicit Types (s t : state Job) (self project : ref).

(** C10: [merge_into] leaves the source project as it was, whether it
    returns or raises and even when source and target are one object; of
    the whole state only the target project can change; and, with handlers
    that only add, what the rounds completed before a failure have put into
    the target is still there when the call ends. *)
Theorem merge_into_frame self project s s' r :
  merge_into self project s = (s', r) ->
  heap s' self = heap s self /\
  touches_only project s s' /\
  (handler_monotone on_add ->
   (forall l1 l2 s1,
      items (_jobs (heap s self)) = l1 ++ l2 ->
      for_each l1 (job_round project) s = (s1, inr tt) ->
      forall nm job, (nm, job) ∈ l1 -> _jobs (heap s' project) !! nm = Some job) /\
   (forall s1 l1 l2 s2,
      for_each (items (_jobs (heap s self))) (job_round project) s = (s1, inr tt) ->
      items (_files (heap s self)) = l1 ++ l2 ->
      for_each l1 (file_round project) s1 = (s2, inr tt) ->
      (forall nm job, _jobs (heap s self) !! nm = Some job ->
                      _jobs (heap s' project) !! nm = Some job) /\
      (forall path ap, (path, ap) ∈ l1 -> _files (heap s' project) !! path = Some ap))).
Proof.
  intros Hrun. rewrite merge_into_rounds in Hrun.
  pose proof (job_rounds_source self project s) as Hsrc1.
  pose proof (job_rounds_touch project (items (_jobs (heap s self))) s) as Htouch1.
  split; [|split].
  - destruct (for_each (items (_jobs (heap s self))) (job_round project) s) as [s1 [e|[]]];
      simpl in *.
    + by injection Hrun as <- <-.
    + pose proof (file_rounds_source self project s1) as Hsrc2.
      rewrite Hrun in Hsrc2. simpl in Hsrc2. congruence.
  - destruct (for_each (items (_jobs (heap s self))) (job_round project) s) as [s1 [e|[]]];
      simpl in *.
    + by injection Hrun as <- <-.
    + pose proof (file_rounds_touch project (items (_files (heap s1 self))) s1) as Htouch2.
      rewrite Hrun in Htouch2. simpl in Htouch2. by eapply touches_only_trans.
  - intros Hmono. split.
    + intros l1 l2 s1 Hitems Hl1 nm job Hin.
      rewrite Hitems, for_each_app, Hl1 in Hrun.
      destruct (job_rounds_return project l1 s s1 Hmono Hl1 nm job Hin) as [_ Hthere].
      eapply lookup_weaken; [exact Hthere|].
      pose proof (job_rounds_extend project l2 s1 Hmono) as Hext.
      destruct (for_each l2 (job_round project) s1) as [s2 [e|[]]]; simpl in *.
      * injection Hrun as <- <-. apply Hext.
      * pose proof (file_rounds_extend project (items (_files (heap s2 self))) s2) as [Hext2 _].
        rewrite Hrun in Hext2. simpl in Hext2.
        by apply (extends_trans _ _ _ Hext Hext2).
    + intros s1 l1 l2 s2 Hjobs Hitems Hl1. rewrite Hjobs in Hrun, Hsrc1. simpl in Hsrc1.
      rewrite Hsrc1, Hitems, for_each_app, Hl1 in Hrun.
      pose proof (file_rounds_extend project l1 s1) as [_ Hsame1].
      rewrite Hl1 in Hsame1. simpl in Hsame1.
      pose proof (file_rounds_extend project l2 s2) as [Hext2 Hsame2].
      rewrite Hrun in Hext2, Hsame2. simpl in Hext2, Hsame2. split.
      * intros nm job Hnm. rewrite Hsame2, Hsame1.
        eapply (job_rounds_return project _ s s1 Hmono Hjobs).
        by apply elem_of_map_to_list.
      * intros path ap Hin.
        destruct (file_rounds_return project l1 s1 s2 Hl1 path ap Hin) as [_ Hthere].
        eapply lookup_weaken; [exact Hthere|]. apply Hext2.
Qed.

(** C5: with handlers that only add and raise nothing but the domain error,
    a merge that returns has put every job and every registered file of the
    source into the other project, and a merge raises the domain error when a
    job name of the source is taken in the other project or a path of the
    source is registered there with another destination.  A merge without
    conflicts returns: with handlers that do nothing, when no job name of
    the source is taken in the other project and every path of the source
    is absolute and either registered there with the same destination or
    not registered there and on disk. *)
Theorem merge_into_copies self project s s' r :
  handler_monotone on_add ->
  handler_domain_errors on_add ->
  merge_into self project s = (s', r) ->
  (r = inr tt ->
   (forall nm job, _jobs (heap s self) !! nm = Some job ->
                   _jobs (heap s' project) !! nm = Some job) /\
   (forall path ap, _files (heap s self) !! path = Some ap ->
                    _files (heap s' project) !! path = Some ap)) /\
  ((exists nm, is_Some (_jobs (heap s self) !! nm) /\ is_Some (_jobs (heap s project) !! nm)) \/
   (exists path a b, _files (heap s self) !! path = Some a /\
                     _files (heap s project) !! path = Some b /\ a <> b) ->
   exists msg, r = inl (AzkabanError msg)) /\
  (handler_idle on_add ->
   (forall nm, is_Some (_jobs (heap s self) !! nm) -> _jobs (heap s project) !! nm = None) ->
   (forall path ap,
      _files (heap s self) !! path = Some ap ->
      isabs path = true /\
      (_files (heap s project) !! path = Some ap \/
       (_files (heap s project) !! path = None /\ is_Some (fs s !! path)))) ->
   r = inr tt).
Proof.
  intros Hmono Hdom Hrun.
  assert (handler_idle on_add ->
          (forall nm, is_Some (_jobs (heap s self) !! nm) -> _jobs (heap s project) !! nm = None) ->
          (forall path ap,
             _files (heap s self) !! path = Some ap ->
             isabs path = true /\
             (_files (heap s project) !! path = Some ap \/
              (_files (heap s project) !! path = None /\ is_Some (fs s !! path)))) ->
          r = inr tt) as Hreturns.
  { intros Hidle Hfree Hfiles.
    pose proof (merge_into_returns self project s Hidle Hfree Hfiles) as Hret.
    by rewrite Hrun in Hret. }
  cut ((r = inr tt ->
        (forall nm job, _jobs (heap s self) !! nm = Some job ->
                        _jobs (heap s' project) !! nm = Some job) /\
        (forall path ap, _files (heap s self) !! path = Some ap ->
                         _files (heap s' project) !! path = Some ap)) /\
       ((exists nm, is_Some (_jobs (heap s self) !! nm) /\
                    is_Some (_jobs (heap s project) !! nm)) \/
        (exists path a b, _files (heap s self) !! path = Some a /\
                          _files (heap s project) !! path = Some b /\ a <> b) ->
        exists msg, r = inl (AzkabanError msg))).
  { intros [Hcopied Hraises]. done. }
  clear Hreturns.
  rewrite merge_into_rounds in Hrun.
  pose proof (job_rounds_source self project s) as Hsrc.
  pose proof (job_rounds_extend project (items (_jobs (heap s self))) s Hmono) as Hext1.
  destruct (for_each (items (_jobs (heap s self))) (job_round project) s)
    as [s1 [e|[]]] eqn:Hjobs; simpl in *.
  - injection Hrun as <- <-. split; [done|]. intros _.
    destruct (job_rounds_raise project _ s s1 e Hdom Hjobs) as [msg ->]. eauto.
  - rewrite Hsrc in Hrun.
    pose proof (file_rounds_extend project (items (_files (heap s self))) s1) as [_ Hsame].
    rewrite Hrun in Hsame. simpl in Hsame. split.
    + intros ->. split.
      * intros nm job Hnm. rewrite Hsame.
        eapply (job_rounds_return project _ s s1 Hmono Hjobs).
        by apply elem_of_map_to_list.
      * intros path ap Hp.
        eapply (file_rounds_return project _ s1 s' Hrun).
        by apply elem_of_map_to_list.
    + intros [(nm & [job Hnm] & [job' Htaken])|(path & a & b & Ha & Hb & Hab)].
      * apply elem_of_map_to_list in Hnm.
        destruct (job_rounds_return project _ s s1 Hmono Hjobs nm job Hnm) as [Hfree _].
        congruence.
      * destruct r as [e|[]].
        { destruct (file_rounds_raise project _ s1 s' e Hrun) as [msg ->]. eauto. }
        apply elem_of_map_to_list in Ha.
        destruct (file_rounds_return project _ s1 s' Hrun path a Ha) as [Hfree _].
        destruct Hext1 as (_ & _ & Hfiles). eapply lookup_weaken in Hb; [|exact Hfiles].
        destruct Hfree; congruence.
Qed.

End MergeClaims.

(** ** Names in the archive *)

Lemma split_headed (s : string) : Forall (fun w => w = EmptyString \/ headed w) (split "/" s).
Proof.
  induction s as [|c s IH]; simpl.
  - constructor; [by left|constructor].
  - destruct (Ascii.eqb c "/") eqn:Hc.
    + constructor; [by left|done].
    + destruct (split "/" s) as [|w ws].
      * constructor; [|constructor]. right. by exists c, EmptyString.
      * inversion IH; subst. constructor; [|done]. right. by exists c, w.
Qed.

Lemma split_job (nm : string) :
  exists l x, split "/" (nm +:+ ".job") = l ++ [x] /\ 4 <= String.length x.
Proof.
  induction nm as [|c nm (l & x & IH & Hlen)]; simpl.
  - exists [], ".job". split; [done|simpl; lia].
  - rewrite IH. destruct (Ascii.eqb c "/").
    + exists (EmptyString :: l), x. done.
    + destruct l as [|w l]; simpl.
      * exists [], (String c x). split; [done|simpl; lia].
      * exists (String c w :: l), x. done.
Qed.

Lemma removelast_Forall {A} (P : A -> Prop) (l : list A) : Forall P l -> Forall P (removelast l).
Proof.
  induction 1 as [|x l Hx Hl IH]; simpl; [constructor|].
  destruct l; [constructor|]. by constructor.
Qed.

Lemma normpath_step_headed (initial : nat) (acc : list string) (comp : string) :
  comp = EmptyString \/ headed comp -> Forall headed acc ->
  Forall headed (normpath_step initial acc comp).
Proof.
  intros Hcomp Hacc. unfold normpath_step.
  destruct (String.eqb comp EmptyString) eqn:Hempty; [done|].
  destruct (String.eqb comp "."); [done|]. simpl.
  destruct (_ || _ || _).
  - apply Forall_app. split; [done|]. constructor; [|constructor].
    destruct Hcomp as [->|Hcomp]; done.
  - by apply removelast_Forall.
Qed.

Lemma normpath_steps_headed (initial : nat) (comps acc : list string) :
  Forall (fun w => w = EmptyString \/ headed w) comps -> Forall headed acc ->
  Forall headed (fold_left (normpath_step initial) comps acc).
Proof.
  intros Hcomps. revert acc. induction Hcomps as [|comp comps Hcomp _ IH]; intros acc Hacc.
  - done.
  - simpl. apply IH. by apply normpath_step_headed.
Qed.

Lemma normpath_step_long (initial : nat) (acc : list string) (x : string) :
  4 <= String.length x -> normpath_step initial acc x = acc ++ [x].
Proof.
  intros Hlen. unfold normpath_step.
  destruct x as [|a [|b [|c [|d x]]]]; simpl in Hlen; try lia.
  assert (String.eqb (String a (String b (String c (String d x)))) EmptyString = false) as ->
    by done.
  assert (String.eqb (String a (String b (String c (String d x)))) "." = false) as ->.
  { apply String.eqb_neq. intros [=]. }
  assert (String.eqb (String a (String b (String c (String d x)))) ".." = false) as ->.
  { apply String.eqb_neq. intros [=]. }
  done.
Qed.

Lemma join_headed (w : string) (ws : list string) :
  headed w -> exists c v, join "/" (w :: ws) = String c v /\ Ascii.eqb c "/" = false.
Proof.
  intros (c & w' & -> & Hc). destruct ws; simpl; eauto.
Qed.

(** The entry of a job always has a name. *)
Lemma stripped_name_job (nm : string) : is_empty (stripped_name (nm +:+ ".job")) = false.
Proof.
  unfold stripped_name, normpath.
  assert (is_empty (nm +:+ ".job") = false) as -> by (by destruct nm).
  destruct (split_job nm) as (l & x & Hsplit & Hlen).
  pose proof (normpath_steps_headed (initial_slashes (nm +:+ ".job"))
                (split "/" (nm +:+ ".job")) [] (split_headed _) (Forall_nil_2 _)) as Hheaded.
  rewrite Hsplit, fold_left_app in Hheaded |- *. simpl in Hheaded |- *.
  rewrite normpath_step_long in Hheaded |- * by done.
  destruct (fold_left _ l [] ++ [x]) as [|w ws] eqn:Hcomps.
  { by destruct (fold_left _ l []). }
  inversion Hheaded as [|? ? Hw _]; subst.
  destruct (join_headed w ws Hw) as (c & v & -> & Hc).
  assert (lstrip "/" (String c v) = String c v) as Hstrip.
  { change (lstrip "/" (String c v)) with (if Ascii.eqb c "/" then lstrip "/" v else String c v).
    by rewrite Hc. }
  destruct (initial_slashes _) as [|[|n]].
  - change (is_empty (String c v)) with false. cbv iota. by rewrite Hstrip.
  - change (lstrip "/" (String c v)) with (lstrip "/" ("/" +:+ String c v)) in Hstrip.
    change (is_empty ("/" +:+ String c v)) with false. cbv iota. by rewrite Hstrip.
  - change (lstrip "/" (String c v)) with (lstrip "/" ("//" +:+ String c v)) in Hstrip.
    change (is_empty ("//" +:+ String c v)) with false. cbv iota. by rewrite Hstrip.
Qed.





(** ** Building the archive *)

Section Build.

Context {Job : Type} {env : Env} {ops : JobOps Job}.
Implicit Types (s t : state Job) (self : ref) (path : string) (es : list (string * fobj)).

Lemma build_exists self path s :
  is_Some (fs s !! path) ->
  build self path false s = (s, inl (AzkabanError ("path " +:+ repr path +:+ " already exists"))).
Proof.
  intros Hex. unfold build, bind, exists_, gets. simpl.
  by rewrite bool_decide_eq_true_2.
Qed.

Lemma build_proceeds self path overwrite s :
  ~ (is_Some (fs s !! path) /\ overwrite = false) ->
  build self path overwrite s =
  (if negb ((0 <? size (_jobs (heap s self)))%nat || (0 <? size (_files (heap s self)))%nat) then
     raise (AzkabanError "building empty project")
   else
     writer <- ZipFile path ;;
     try_finally
       (jobs <- self_jobs self ;;
        for_each (items jobs) (build_job_round self writer) ;;;
        files <- self_files self ;;
        for_each (items files) (build_file_round writer))
       (zip_close writer) ;;;
     size <- human_size path ;;
     log INFO ("project successfully built (size: " +:+ size +:+ ")")) s.
Proof.
  intros Hgo. unfold build at 1. unfold bind at 1. unfold exists_, gets.
  destruct (bool_decide (is_Some (fs s !! path)) && negb overwrite) eqn:Hcond; [|done].
  apply andb_true_iff in Hcond as [Hex Hov]. apply bool_decide_eq_true in Hex.
  destruct overwrite; [done|]. by destruct Hgo.
Qed.

Lemma build_empty self path overwrite s :
  ~ (is_Some (fs s !! path) /\ overwrite = false) ->
  _jobs (heap s self) = ∅ -> _files (heap s self) = ∅ ->
  build self path overwrite s = (s, inl (AzkabanError "building empty project")).
Proof.
  intros Hgo Hj Hf. rewrite build_proceeds by done. by rewrite Hj, Hf, !map_size_empty.
Qed.

Section Rounds.

Variables (self : ref) (path : string) (disk : fsys).

(** One job: its handler runs, its file is written to a scratch path, goes
    into the archive and the scratch path is removed. *)
Lemma build_job_round_runs nm job t es :
  handler_silent on_build ->
  fs t = <[path := ZipArchive es]> disk ->
  exists t',
    build_job_round self path (nm, job) t = (t', inr tt) /\
    fs t' = <[path := ZipArchive (es ++ [(stored_name (nm +:+ ".job"), Plain (job_text job))])]>
              disk /\
    _files (heap t' self) = _files (heap t self) /\
    (forall r, r <> self -> heap t' r = heap t r) /\ rc t' = rc t /\ trace t' = trace t.
Proof.
  intros Hsilent Hfs.
  destruct (Hsilent job nm (fs t) (heap t self)) as [Hret Hfiles].
  unfold build_job_round, bind, call_handler.
  destruct (on_build job nm (fs t) (heap t self)) as [p' e] eqn:Hh. simpl in Hret, Hfiles.
  subst e. unfold temppath, bind, gets, try_finally, modify, zip_write. simpl.
  pose proof (mkstemp_fresh (fs t)) as Hfresh.
  set (tmp := mkstemp (fs t)) in *.
  assert (tmp <> path) as Hne.
  { intros ->. rewrite Hfs, lookup_insert_eq in Hfresh. discriminate. }
  rewrite lookup_insert_eq, stripped_name_job. rewrite lookup_insert_ne by done.
  eexists. split; [reflexivity|]. simpl. repeat split.
  - rewrite Hfs, lookup_insert_eq. simpl.
    rewrite delete_insert_ne by done. rewrite delete_insert_eq.
    rewrite delete_id by (by rewrite <- Hfs). by rewrite insert_insert_eq.
  - by rewrite decide_True.
  - intros r Hr. by rewrite decide_False.
Qed.

Lemma build_job_rounds_run (l : list (string * Job)) t es :
  handler_silent on_build ->
  fs t = <[path := ZipArchive es]> disk ->
  exists t',
    for_each l (build_job_round self path) t = (t', inr tt) /\
    fs t' = <[path := ZipArchive (es ++ job_entries l)]> disk /\
    _files (heap t' self) = _files (heap t self) /\
    (forall r, r <> self -> heap t' r = heap t r) /\ rc t' = rc t /\ trace t' = trace t.
Proof.
  intros Hsilent. revert t es. induction l as [|[nm job] l IH]; intros t es Hfs.
  - exists t. simpl. rewrite app_nil_r. done.
  - destruct (build_job_round_runs nm job t es Hsilent Hfs)
      as (t1 & Hrun1 & Hfs1 & Hfiles1 & Hheap1 & Hrc1 & Htr1).
    destruct (IH t1 _ Hfs1) as (t' & Hrun & Hfs' & Hfiles' & Hheap' & Hrc' & Htr').
    exists t'. rewrite for_each_cons, Hrun1. split; [exact Hrun|].
    rewrite Hfs', <- app_assoc. simpl. repeat split; try congruence.
    intros r Hr. rewrite Hheap', Hheap1; done.
Qed.


End Rounds.

Lemma build_opens self path overwrite s :
  ~ (is_Some (fs s !! path) /\ overwrite = false) ->
  ~ (_jobs (heap s self) = ∅ /\ _files (heap s self) = ∅) ->
  build self path overwrite s =
  (if negb (can_create (fs s) path) then raise (IOError path)
   else
     (try_finally
        (jobs <- self_jobs self ;;
         for_each (items jobs) (build_job_round self path) ;;;
         files <- self_files self ;;
         for_each (items files) (build_file_round path))
        (zip_close path) ;;;
      size <- human_size path ;;
      log INFO ("project successfully built (size: " +:+ size +:+ ")")))
    (if negb (can_create (fs s) path) then s
     else set_fs (<[path := ZipArchive []]> (fs s)) s).
Proof.
  intros Hgo Hsome. rewrite build_proceeds by done.
  assert (negb ((0 <? size (_jobs (heap s self)))%nat || (0 <? size (_files (heap s self)))%nat)
          = false) as ->.
  { apply negb_false_iff, orb_true_iff.
    destruct (decide (_jobs (heap s self) = ∅)) as [Hj|Hj].
    - right. apply Nat.ltb_lt. destruct (decide (_files (heap s self) = ∅)) as [Hf|Hf].
      + by destruct Hsome.
      + apply map_size_non_empty_iff in Hf. lia.
    - left. apply Nat.ltb_lt. apply map_size_non_empty_iff in Hj. lia. }
  unfold bind at 1. unfold ZipFile, bind at 1. unfold gets.
  by destruct (can_create (fs s) path).
Qed.



End Build.

Section BuildClaims.

Context {Job : Type} {env : Env} {ops : JobOps Job}.
Implicit Types (s : state Job) (self : ref) (path : string).


End BuildClaims.

(** ** Credentials *)

Section Credentials.

Context {Job : Type} {env : Env}.
Implicit Types (s : state Job) (self : ref) (url user password alias : option string).

Lemma get_credentials_blocks self url user password alias :
  _get_credentials (Job := Job) self url user password alias =
  (found <- lookup_block url user alias ;;
   let '(parser, url, user, session_id) := found in
   let url := rstrip "/" url in
   expired <- probe_block url session_id ;;
   if expired : bool then login_block url user password alias parser
   else ret (url, str_opt session_id)).
Proof. reflexivity. Qed.

Lemma parser_read_rc s :
  parser_read (parser_new {[ "user" := EmptyString; "session_id" := EmptyString ]}) s
  = (s, inr (rc_parser s)).
Proof.
  unfold parser_read, gets, parser_new, rc_parser. simpl. do 2 f_equal. f_equal.
  apply (right_id ∅ (union_with _)).
Qed.

Lemma parser_get_value parser section opt v s :
  option_value parser section opt = Some v ->
  parser_get parser section opt s = (s, inr v).
Proof.
  unfold option_value, parser_get. intros Hv.
  destruct (sections parser !! section) as [sec|]; [|done].
  destruct (sec !! opt) as [w|]; [by injection Hv as ->|].
  by rewrite Hv.
Qed.

Lemma has_option_value parser section opt :
  has_option parser section opt = bool_decide (is_Some (option_value parser section opt)).
Proof.
  unfold has_option, option_value.
  destruct (sections parser !! section) as [sec|].
  - destruct (sec !! opt) as [w|].
    + rewrite !(bool_decide_eq_true_2 (is_Some (Some w))) by eauto. done.
    + rewrite (bool_decide_eq_false_2 (is_Some None)); [done|by intros [? ?]].
  - symmetry. apply bool_decide_eq_false_2. by intros [? ?].
Qed.

(** The options [user] and [session_id] always have a value. *)
Lemma rc_parser_default s section sec opt :
  sections (rc s) !! section = Some sec ->
  opt = "user" \/ opt = "session_id" ->
  is_Some (option_value (rc_parser s) section opt).
Proof.
  intros Hsec Hopt. unfold option_value, rc_parser. simpl. rewrite Hsec.
  destruct (sec !! opt) as [w|]; [eauto|].
  apply lookup_union_is_Some. right.
  destruct Hopt as [-> | ->]; by vm_compute; eauto.
Qed.

(** *** The lookup of the alias *)

Lemma lookup_alias_missing url user a s :
  truthy a = true ->
  sections (rc s) !! a = None ->
  lookup_block url user (Some a) s = (s, inl (AzkabanError ("missing alias " +:+ repr a))).
Proof.
  intros Ha Hsec. unfold lookup_block. simpl. rewrite Ha.
  unfold bind. rewrite parser_read_rc. unfold has_section, rc_parser. simpl.
  rewrite Hsec. rewrite bool_decide_eq_false_2; [done|by intros [? ?]].
Qed.

Lemma lookup_url_missing url user a s :
  truthy a = true ->
  is_Some (sections (rc s) !! a) ->
  option_value (rc_parser s) a "url" = None ->
  lookup_block url user (Some a) s = (s, inl (AzkabanError ("missing url for alias " +:+ repr a))).
Proof.
  intros Ha Hsec Hurl. unfold lookup_block. simpl. rewrite Ha.
  unfold bind. rewrite parser_read_rc. unfold has_section at 1. simpl.
  rewrite bool_decide_eq_true_2 by done. simpl.
  rewrite has_option_value, Hurl. rewrite bool_decide_eq_false_2; [done|by intros [? ?]].
Qed.

Lemma lookup_alias_found url user a s u0 usr0 sid0 :
  truthy a = true ->
  option_value (rc_parser s) a "url" = Some u0 ->
  option_value (rc_parser s) a "user" = Some usr0 ->
  option_value (rc_parser s) a "session_id" = Some sid0 ->
  lookup_block url user (Some a) s = (s, inr (rc_parser s, u0, Some usr0, Some sid0)).
Proof.
  intros Ha Hurl Huser Hsid. unfold lookup_block. simpl. rewrite Ha.
  unfold bind. rewrite parser_read_rc. unfold has_section at 1. simpl.
  assert (is_Some (sections (rc s) !! a)) as Hsec.
  { unfold option_value, rc_parser in Hurl. simpl in Hurl.
    destruct (sections (rc s) !! a); [eauto|done]. }
  rewrite bool_decide_eq_true_2 by done. simpl.
  rewrite has_option_value, Hurl. rewrite bool_decide_eq_true_2 by eauto. simpl.
  rewrite (parser_get_value _ _ _ u0), (parser_get_value _ _ _ usr0),
    (parser_get_value _ _ _ sid0) by done.
  done.
Qed.

Lemma lookup_url url user alias s :
  truthy_opt alias = false ->
  truthy_opt url = true ->
  lookup_block url user alias s = (s, inr (empty_config, str_opt url, user, None)).
Proof. intros Ha Hu. unfold lookup_block. by rewrite Ha, Hu. Qed.

Lemma lookup_neither url user alias s :
  truthy_opt alias = false ->
  truthy_opt url = false ->
  lookup_block url user alias s
  = (s, inl (ValueError "Either url or alias must be specified.")).
Proof. intros Ha Hu. unfold lookup_block. by rewrite Ha, Hu. Qed.

(** *** The probe *)

Lemma probe_block_run u (session_id : option string) s :
  probe_block u session_id s =
  if truthy_opt session_id then
    match server (trace s) (u +:+ "/manager") {[ "session.id" := str_opt session_id ]} ∅ with
    | PostRaises e => (emit (probe_event u (str_opt session_id)) s, inl e)
    | PostResponse r => (emit (probe_event u (str_opt session_id)) s, inr (truthy (text r)))
    end
  else (s, inr true).
Proof.
  unfold probe_block. destruct (truthy_opt session_id); [|done]. simpl.
  unfold bind, post. by destruct (server _ _ _ _).
Qed.

(** *** The login *)

Lemma translate_request_error_run {A} (e : exn) s :
  translate_request_error (A := A) e s = (s, inl (translated e)).
Proof. by destruct e. Qed.

Lemma login_block_run (u : string) user password alias (parser : config) s :
  let s1 := asked user password s in
  let s2 := emit (login_event u user password) s1 in
  login_block u user password alias parser s =
  match server (trace s1) u (login_data user password) ∅ with
  | PostRaises e => (s2, inl (translated e))
  | PostResponse r =>
      match json r with
      | None => (s2, inl (ValueError "No JSON object could be decoded"))
      | Some res =>
          match res !! "error" with
          | Some err => (s2, inl (AzkabanError err))
          | None =>
              match res !! "session.id" with
              | None => (s2, inl (KeyError "session.id"))
              | Some tok =>
                  if truthy_opt alias then
                    match sections parser !! str_opt alias with
                    | None => (s2, inl (NoSectionError (str_opt alias)))
                    | Some sec =>
                        (set_rc (mkConfig (defaults parser)
                                   (<[str_opt alias := <["session_id" := tok]> sec]>
                                      (sections parser))) s2,
                         inr (u, tok))
                    end
                  else (s2, inr (u, tok))
              end
          end
      end
  end.
Proof.
  intros s1 s2. unfold login_block. fold (login_user user).
  unfold bind at 1.
  assert ((if truthy_opt password then ret (str_opt password)
           else ask_password ("azkaban password for " +:+ login_user user +:+ ": ")) s
          = (s1, inr (login_password user password))) as ->.
  { unfold s1, asked, login_password, login_prompt. by destruct (truthy_opt password). }
  unfold bind at 1. unfold try_except, post. fold (login_data user password).
  fold (login_event u user password). fold s2.
  destruct (server (trace s1) u (login_data user password) ∅) as [e|r].
  - by rewrite translate_request_error_run.
  - unfold bind at 1. unfold json_of. destruct (json r) as [res|]; [|done].
    unfold ret at 1. destruct (res !! "error") as [err|] eqn:Herr.
    + rewrite bool_decide_eq_true_2 by eauto. unfold bind, getitem. by rewrite Herr.
    + rewrite bool_decide_eq_false_2 by (by intros [? ?]).
      unfold bind at 1. unfold getitem. destruct (res !! "session.id") as [tok|]; [|done].
      unfold ret at 1. destruct (truthy_opt alias); [|done].
      unfold bind, parser_set. by destruct (sections parser !! str_opt alias).
Qed.

(** *** What credential resolution sends *)

Lemma lookup_block_state url user alias s s' r :
  lookup_block url user alias s = (s', r) -> s' = s.
Proof.
  unfold lookup_block, bind, parser_read, parser_get, gets, raise, ret. intros Hrun.
  repeat case_match; by simplify_eq.
Qed.

Lemma get_credentials_trace self url user password alias s s1 r :
  _get_credentials self url user password alias s = (s1, r) ->
  exists evs, trace s1 = trace s ++ evs /\ Forall (fun e => carries_action e = false) evs.
Proof.
  rewrite get_credentials_blocks. unfold bind at 1.
  destruct (lookup_block url user alias s) as [s0 [e|[[[parser u0] usr] sid]]] eqn:Hlookup;
    apply lookup_block_state in Hlookup as ->.
  { intros [= <- _]. exists []. by rewrite app_nil_r. }
  cbv beta iota zeta. unfold bind. rewrite probe_block_run.
  assert (forall (t : state Job) r',
            login_block (rstrip "/" u0) usr password alias parser t = (s1, r') ->
            exists evs, trace s1 = trace t ++ evs /\
                        Forall (fun e => carries_action e = false) evs) as Hlogin.
  { intros t r'. rewrite login_block_run.
    assert (forall r'', (emit (login_event (rstrip "/" u0) usr password)
                           (asked usr password t), r'') = (s1, r') ->
              exists evs, trace s1 = trace t ++ evs /\
                          Forall (fun e => carries_action e = false) evs) as Hsent.
    { intros r'' [= <- _]. unfold asked. destruct (truthy_opt password); simpl.
      - eexists [_]. split; [done|]. by repeat constructor.
      - eexists [_; _]. rewrite <- app_assoc. split; [done|]. by repeat constructor. }
    repeat case_match; try apply Hsent.
    intros [= <- _]. unfold asked. destruct (truthy_opt password); simpl.
    - eexists [_]. split; [done|]. by repeat constructor.
    - eexists [_; _]. rewrite <- app_assoc. split; [done|]. by repeat constructor. }
  destruct (truthy_opt sid).
  - destruct (server _ _ _ _) as [e|resp].
    + intros [= <- _]. eexists [_]. split; [done|]. by repeat constructor.
    + destruct (truthy (text resp)).
      * intros Hrun. destruct (Hlogin _ _ Hrun) as (evs & Htrace & Hevs).
        exists (probe_event (rstrip "/" u0) (str_opt sid) :: evs). simpl in Htrace.
        rewrite Htrace, <- app_assoc. split; [done|]. by constructor.
      * intros [= <- _]. eexists [_]. split; [done|]. by repeat constructor.
  - apply Hlogin.
Qed.

End Credentials.

Section CredentialClaims.

Context {Job : Type} {env : Env}.
Implicit Types (s : state Job) (self : ref) (url user password alias : option string).

(** C7: with an alias, [_get_credentials] reads url, user and session id of
    the alias from the credential file and raises the domain error when the
    file has no section for the alias or the section has no url.  A cached
    session id that the probe request answers with an empty body is returned
    as it is: nothing is asked, no login is sent and the file is not written.
    Without a cached session id, or when the probe is answered with a body,
    the user is asked for a password unless one was supplied, one login
    request carries user name and password, an [error] in the answer is
    raised as the domain error, and the session id of a good answer is
    returned and stored in the section of the alias of the credential file. *)
Theorem get_credentials_alias self url user password a s :
  truthy a = true ->
  (sections (rc s) !! a = None ->
   _get_credentials self url user password (Some a) s
   = (s, inl (AzkabanError ("missing alias " +:+ repr a)))) /\
  (is_Some (sections (rc s) !! a) ->
   option_value (rc_parser s) a "url" = None ->
   _get_credentials self url user password (Some a) s
   = (s, inl (AzkabanError ("missing url for alias " +:+ repr a)))) /\
  (forall u0 usr0 sid0 sec,
     sections (rc s) !! a = Some sec ->
     option_value (rc_parser s) a "url" = Some u0 ->
     option_value (rc_parser s) a "user" = Some usr0 ->
     option_value (rc_parser s) a "session_id" = Some sid0 ->
     let u := rstrip "/" u0 in
     (forall r,
        truthy sid0 = true ->
        server (trace s) (u +:+ "/manager") {[ "session.id" := sid0 ]} ∅ = PostResponse r ->
        truthy (text r) = false ->
        _get_credentials self url user password (Some a) s
        = (emit (probe_event u sid0) s, inr (u, sid0))) /\
     (forall s1,
        (truthy sid0 = false /\ s1 = s) \/
        (truthy sid0 = true /\
         exists r,
           server (trace s) (u +:+ "/manager") {[ "session.id" := sid0 ]} ∅ = PostResponse r /\
           truthy (text r) = true /\ s1 = emit (probe_event u sid0) s) ->
        let s2 := emit (login_event u (Some usr0) password) (asked (Some usr0) password s1) in
        forall r res,
          server (trace (asked (Some usr0) password s1)) u (login_data (Some usr0) password) ∅
          = PostResponse r ->
          json r = Some res ->
          (forall err,
             res !! "error" = Some err ->
             _get_credentials self url user password (Some a) s
             = (s2, inl (AzkabanError err))) /\
          (forall tok,
             res !! "error" = None ->
             res !! "session.id" = Some tok ->
             _get_credentials self url user password (Some a) s
             = (set_rc (mkConfig (defaults (rc_parser s))
                          (<[a := <["session_id" := tok]> sec]> (sections (rc s)))) s2,
                inr (u, tok))))).
Proof.
  intros Ha. rewrite get_credentials_blocks. split; [|split].
  - intros Hsec. unfold bind. by rewrite lookup_alias_missing.
  - intros Hsec Hurl. unfold bind. by rewrite lookup_url_missing.
  - intros u0 usr0 sid0 sec Hsec Hurl Huser Hsid u. split.
    + intros r Hsid0 Hprobe Hbody. unfold bind at 1.
      rewrite (lookup_alias_found _ _ _ _ u0 usr0 sid0) by done. fold u.
      unfold bind. rewrite probe_block_run. simpl.
      rewrite Hsid0, Hprobe, Hbody. done.
    + intros s1 Hs1 s2 r res Hlogin Hjson.
      assert ((found <- lookup_block url user (Some a) ;;
               let '(parser, url, user, session_id) := found in
               let url := rstrip "/" url in
               expired <- probe_block url session_id ;;
               if expired : bool then login_block url user password (Some a) parser
               else ret (url, str_opt session_id)) s
              = login_block u (Some usr0) password (Some a) (rc_parser s) s1) as ->.
      { unfold bind at 1. rewrite (lookup_alias_found _ _ _ _ u0 usr0 sid0) by done. fold u.
        unfold bind. rewrite probe_block_run. simpl.
        destruct Hs1 as [[Hsid0 ->]|(Hsid0 & r0 & Hprobe & Hbody & ->)].
        - by rewrite Hsid0.
        - by rewrite Hsid0, Hprobe, Hbody. }
      rewrite login_block_run. simpl. rewrite Hlogin, Hjson, Ha. fold s2. split.
      * intros err ->. done.
      * intros tok -> ->. by rewrite Hsec.
Qed.

(** Without an alias nothing is written to the credential file. *)
Lemma get_credentials_url_keeps_rc self url user password alias s :
  truthy_opt alias = false ->
  rc (_get_credentials self url user password alias s).1 = rc s.
Proof.
  intros Ha. rewrite get_credentials_blocks. unfold bind at 1.
  destruct (truthy_opt url) eqn:Hu.
  - rewrite lookup_url by done. cbv beta iota zeta.
    unfold bind at 1. rewrite probe_block_run. change (truthy_opt None) with false.
    cbv beta iota. rewrite login_block_run, Ha.
    assert (rc (asked user password s) = rc s) as Hasked.
    { unfold asked. by destruct (truthy_opt password). }
    destruct (server _ _ _ _) as [e|r]; [done|].
    destruct (json r) as [res|]; [|done].
    destruct (res !! "error"); [done|].
    by destruct (res !! "session.id").
  - by rewrite lookup_neither.
Qed.

Lemma login_block_raises (u : string) user password alias (parser : config) s s' e :
  answers_logins ->
  (truthy_opt alias = true -> is_Some (sections parser !! str_opt alias)) ->
  login_block u user password alias parser s = (s', inl e) ->
  exists msg, e = AzkabanError msg.
Proof.
  intros Hlogins Hsec. rewrite login_block_run.
  pose proof (Hlogins (trace (asked user password s)) u (login_data user password)) as Hans.
  destruct (server _ _ _ _) as [e0|r].
  - intros [= _ <-]. destruct Hans as [-> | ->]; [done| |]; simpl; eauto.
  - destruct Hans as (res & -> & Hres); [done|].
    destruct (res !! "error") as [err|]; [intros [= _ <-]; eauto|].
    destruct Hres as [[? ?]|[tok Htok]]; [done|]. rewrite Htok.
    destruct (truthy_opt alias); [|done].
    destruct (Hsec eq_refl) as [sec ->]. done.
Qed.

Lemma get_credentials_raises self url user password alias s s' e :
  answers_probes -> answers_logins ->
  truthy_opt alias = true \/ truthy_opt url = true ->
  _get_credentials self url user password alias s = (s', inl e) ->
  exists msg, e = AzkabanError msg.
Proof.
  intros Hprobes Hlogins Hgiven. rewrite get_credentials_blocks. unfold bind at 1.
  destruct (truthy_opt alias) eqn:Ha.
  - destruct alias as [a|]; [|done]. simpl in Ha.
    destruct (sections (rc s) !! a) as [sec|] eqn:Hsec.
    + destruct (option_value (rc_parser s) a "url") as [u0|] eqn:Hurl.
      * destruct (rc_parser_default s a sec "user" Hsec) as [usr0 Huser]; [by left|].
        destruct (rc_parser_default s a sec "session_id" Hsec) as [sid0 Hsid]; [by right|].
        rewrite (lookup_alias_found _ _ _ _ u0 usr0 sid0) by done.
        unfold bind. rewrite probe_block_run. simpl.
        destruct (truthy sid0).
        -- destruct (Hprobes (trace s) (rstrip "/" u0) sid0) as [r ->].
           destruct (truthy (text r)); [|done].
           apply login_block_raises; [done|]. intros _. simpl. rewrite Hsec. eauto.
        -- apply login_block_raises; [done|]. intros _. simpl. rewrite Hsec. eauto.
      * rewrite lookup_url_missing by eauto. intros [= _ <-]. eauto.
    + rewrite lookup_alias_missing by done. intros [= _ <-]. eauto.
  - destruct Hgiven as [?|Hu]; [done|]. rewrite lookup_url by done. cbv beta iota zeta.
    unfold bind at 1. rewrite probe_block_run. change (truthy_opt None) with false.
    cbv beta iota. apply login_block_raises; [done|]. by rewrite Ha.
Qed.

End CredentialClaims.

(** ** The remote operations *)

Section RemoteFacts.

Context {Job : Type} {env : Env}.
Implicit Types (s : state Job) (self : ref) (url user password alias : option string).

Lemma upload_run self (archive : string) url user password alias s s1 (u sid : string) :
  _get_credentials self url user password alias s = (s1, inr (u, sid)) ->
  upload self archive url user password alias s =
  match fs s1 !! archive with
  | None => (s1, inl (AzkabanError ("unable to find archive at " +:+ repr archive)))
  | Some o =>
      let s2 := emit (EvPost (u +:+ "/manager") (upload_data self s1 sid) (upload_files o)) s1 in
      match server (trace s1) (u +:+ "/manager") (upload_data self s1 sid) (upload_files o) with
      | PostRaises e => (s2, inl (upload_translated archive e))
      | PostResponse r => upload_answer r s2
      end
  end.
Proof.
  intros Hcred. unfold upload. unfold bind at 1. rewrite Hcred.
  unfold bind at 1. unfold try_except, bind at 1. unfold self_name, gets.
  unfold bind at 1. unfold open_rb. destruct (fs s1 !! archive) as [o|]; [|done].
  unfold post. fold (upload_data self s1 sid). fold (upload_files o).
  destruct (server _ _ _ _) as [e|r].
  - destruct e; try done.
  - unfold upload_answer, bind at 1. unfold json_of. destruct (json r) as [res|]; [|done].
    unfold ret at 1. destruct (res !! "error") as [err|] eqn:Herr.
    + rewrite bool_decide_eq_true_2 by eauto. unfold bind, getitem. by rewrite Herr.
    + rewrite bool_decide_eq_false_2 by (by intros [? ?]).
      unfold bind at 1. unfold getitem. destruct (res !! "projectId") as [pid|]; [|done].
      unfold ret at 1. unfold bind at 1. destruct (res !! "version") as [v|]; [|done].
      done.
Qed.

Lemma run_run self (flow : string) url user password alias s s1 (u sid : string) :
  _get_credentials self url user password alias s = (s1, inr (u, sid)) ->
  run self flow url user password alias s =
  let s2 := emit (EvPost (u +:+ "/executor") (run_data self s1 sid flow) ∅) s1 in
  match server (trace s1) (u +:+ "/executor") (run_data self s1 sid flow) ∅ with
  | PostRaises e => (s2, inl (translated e))
  | PostResponse r => run_answer u flow r s2
  end.
Proof.
  intros Hcred. unfold run. unfold bind at 1. rewrite Hcred.
  unfold bind at 1. unfold try_except, bind at 1. unfold self_name, gets.
  unfold post. fold (run_data self s1 sid flow).
  destruct (server _ _ _ _) as [e|r].
  - by rewrite translate_request_error_run.
  - unfold run_answer, bind at 1. unfold json_of. destruct (json r) as [res|]; [|done].
    unfold ret at 1. destruct (res !! "error") as [err|] eqn:Herr.
    + rewrite bool_decide_eq_true_2 by eauto. unfold bind, getitem. by rewrite Herr.
    + rewrite bool_decide_eq_false_2 by (by intros [? ?]).
      unfold bind at 1. unfold getitem. destruct (res !! "execid") as [execid|]; [|done].
      done.
Qed.

End RemoteFacts.

Section RemoteClaims.

Context {Job : Type} {env : Env} {ops : JobOps Job}.
Implicit Types (s : state Job) (self : ref) (url user password alias : option string).

(** C6, amended: once the credentials are resolved and the request is
    answered by a JSON object, [upload] and [run] raise the domain error with
    the message of the [error] field when the object has one; when it has
    none and holds the fields of the operation ([projectId] and [version] for
    [upload], [execid] for [run]) they log the fields and return the object. *)
Theorem remote_answers self url user password alias s s1 (u sid : string) :
  _get_credentials self url user password alias s = (s1, inr (u, sid)) ->
  (forall (archive : string) o r res,
     fs s1 !! archive = Some o ->
     server (trace s1) (u +:+ "/manager") (upload_data self s1 sid) (upload_files o)
     = PostResponse r ->
     json r = Some res ->
     let s2 := emit (EvPost (u +:+ "/manager") (upload_data self s1 sid) (upload_files o)) s1 in
     (forall err,
        res !! "error" = Some err ->
        upload self archive url user password alias s = (s2, inl (AzkabanError err))) /\
     (forall projectId version,
        res !! "error" = None ->
        res !! "projectId" = Some projectId ->
        res !! "version" = Some version ->
        upload self archive url user password alias s
        = (emit (EvLog INFO ("project successfully uploaded (id: " +:+ projectId
                             +:+ ", version: " +:+ version +:+ ")")) s2,
           inr res))) /\
  (forall (flow : string) r res,
     server (trace s1) (u +:+ "/executor") (run_data self s1 sid flow) ∅ = PostResponse r ->
     json r = Some res ->
     let s2 := emit (EvPost (u +:+ "/executor") (run_data self s1 sid flow) ∅) s1 in
     (forall err,
        res !! "error" = Some err ->
        run self flow url user password alias s = (s2, inl (AzkabanError err))) /\
     (forall execid,
        res !! "error" = None ->
        res !! "execid" = Some execid ->
        exists s', run self flow url user password alias s = (s', inr res))).
Proof.
  intros Hcred. split.
  - intros archive o r res Harchive Hanswer Hjson s2.
    rewrite (upload_run _ _ _ _ _ _ _ s1 u sid Hcred), Harchive. cbv zeta.
    rewrite Hanswer. unfold upload_answer. rewrite Hjson. split.
    + by intros err ->.
    + by intros projectId version -> -> ->.
  - intros flow r res Hanswer Hjson s2.
    rewrite (run_run _ _ _ _ _ _ _ s1 u sid Hcred). cbv zeta.
    rewrite Hanswer. unfold run_answer. rewrite Hjson. split.
    + by intros err ->.
    + intros execid -> ->. eauto.
Qed.

(** C8: the requests that credential resolution sends ahead, a probe and a
    login, name no action.  Once the credentials are resolved to a URL and
    a session id, [upload] of an archive that can be opened sends exactly one
    request, to [/manager] under that URL, with the action [upload], the
    session id and the name of the project, and [run] sends exactly one
    request, to [/executor], with the action [executeFlow], the session id,
    the name of the project and the name of the flow; whatever follows in
    the trace is logging. *)
Theorem remote_requests self url user password alias s s1 (u sid : string) :
  _get_credentials self url user password alias s = (s1, inr (u, sid)) ->
  (exists evs, trace s1 = trace s ++ evs /\ Forall (fun e => carries_action e = false) evs) /\
  (forall (archive : string) o s' r,
     fs s1 !! archive = Some o ->
     upload self archive url user password alias s = (s', r) ->
     exists logs,
       trace s' =
       trace s1 ++
       EvPost (u +:+ "/manager")
              {[ "ajax" := "upload"; "session.id" := sid; "project" := name (heap s1 self) ]}
              {[ "file" := ("file.zip", o, "application/zip") ]} :: logs /\
       Forall (fun e => is_post e = false) logs) /\
  (forall (flow : string) s' r,
     run self flow url user password alias s = (s', r) ->
     exists logs,
       trace s' =
       trace s1 ++
       EvPost (u +:+ "/executor")
              {[ "ajax" := "executeFlow"; "session.id" := sid;
                 "project" := name (heap s1 self); "flow" := flow ]}
              ∅ :: logs /\
       Forall (fun e => is_post e = false) logs).
Proof.
  intros Hcred. split; [by eapply get_credentials_trace|]. split.
  - intros archive o s' r Harchive.
    rewrite (upload_run _ _ _ _ _ _ _ s1 u sid Hcred), Harchive. cbv zeta.
    destruct (server _ _ _ _) as [e|resp].
    + intros [= <- _]. exists []. done.
    + unfold upload_answer. destruct (json resp) as [res|]; [|intros [= <- _]; by exists []].
      destruct (res !! "error"); [intros [= <- _]; by exists []|].
      destruct (res !! "projectId"); [|intros [= <- _]; by exists []].
      destruct (res !! "version"); [|intros [= <- _]; by exists []].
      intros [= <- _]. eexists [_]. simpl. rewrite <- app_assoc. split; [done|].
      by repeat constructor.
  - intros flow s' r. rewrite (run_run _ _ _ _ _ _ _ s1 u sid Hcred). cbv zeta.
    destruct (server _ _ _ _) as [e|resp].
    + intros [= <- _]. exists []. done.
    + unfold run_answer. destruct (json resp) as [res|]; [|intros [= <- _]; by exists []].
      destruct (res !! "error"); [intros [= <- _]; by exists []|].
      destruct (res !! "execid"); [|intros [= <- _]; by exists []].
      intros [= <- _]. eexists [_; _]. simpl. rewrite <- !app_assoc. split; [done|].
      by repeat constructor.
Qed.

(** *** The command line *)

Lemma main_verbose self (args : Args) s :
  quiet args = false ->
  main self args s = (s, inl (NameError "get_formatted_stream_handler")).
Proof. intros Hq. unfold main, bind. by rewrite Hq. Qed.

Lemma main_quiet self (args : Args) s :
  quiet args = true ->
  main self args s =
  match dispatch self args s with
  | (s', inl (AzkabanError msg)) => (emit (EvLog ERROR msg) s', inl (SystemExit 1))
  | other => other
  end.
Proof.
  intros Hq. unfold main, bind at 1. rewrite Hq. simpl. unfold try_except.
  destruct (dispatch self args s) as [s' [e|[]]]; [|done]. by destruct e.
Qed.

(** C2, amended: [_get_credentials] raises [ValueError], not the domain
    error, when neither a url nor an alias is given.  When one is given, the
    probe is answered and the login is answered as the server does, every
    failure of [_get_credentials] is the domain error: a missing alias, a
    missing url, a login that cannot connect, a malformed URL, an [error] in
    the answer.  A domain error raised by a command of the command line run
    with [--quiet] is logged as an error and ends the run with status 1. *)
Theorem get_credentials_errors self url user password alias s :
  (truthy_opt alias = false ->
   truthy_opt url = false ->
   _get_credentials self url user password alias s
   = (s, inl (ValueError "Either url or alias must be specified."))) /\
  (answers_probes -> answers_logins ->
   truthy_opt alias = true \/ truthy_opt url = true ->
   forall s' e,
     _get_credentials self url user password alias s = (s', inl e) ->
     exists msg, e = AzkabanError msg) /\
  (forall (args : Args) s' msg,
     quiet args = true ->
     dispatch self args s = (s', inl (AzkabanError msg)) ->
     main self args s = (emit (EvLog ERROR msg) s', inl (SystemExit 1))).
Proof.
  split; [|split].
  - intros Ha Hu. rewrite get_credentials_blocks. unfold bind.
    by rewrite lookup_neither.
  - intros Hprobes Hlogins Hgiven s' e. by apply get_credentials_raises.
  - intros args s' msg Hq Hrun. rewrite main_quiet by done. by rewrite Hrun.
Qed.

End RemoteClaims.

(** ** Concrete runs *)

Lemma plain_on_add_domain_errors : handler_domain_errors (on_add (Job := Demo.PlainJob)).
Proof. intros job n f p e. done. Qed.

Lemma plain_on_build_silent : handler_silent (on_build (Job := Demo.PlainJob)).
Proof. intros job n f p. done. Qed.

(** The source [baz] is merged into [qux], which holds [j2] already: the
    call raises at [j2], [baz] is as before and [qux] has kept [j1]. *)
Example merge_into_partial :
  let s' := (merge_into 1 0 Demo.clash).1 in
  (merge_into 1 0 Demo.clash).2 = inl (AzkabanError "duplicate job name 'j2'") /\
  heap s' 1 = Demo.baz /\
  _jobs (heap s' 0) !! "j1" = Some Demo.noop.
Proof. vm_compute. done. Qed.

Lemma merge_into_frame_witness :
  let s' := (merge_into 1 0 Demo.clash).1 in
  heap s' 1 = heap Demo.clash 1 /\ touches_only 0 Demo.clash s'.
Proof.
  intros s'.
  assert (merge_into 1 0 Demo.clash = (s', (merge_into 1 0 Demo.clash).2)) as Hrun
    by (vm_compute; reflexivity).
  destruct (merge_into_frame 1 0 Demo.clash s' _ Hrun) as (Hsource & Htouch & _).
  split; [exact Hsource|exact Htouch].
Defined.

Lemma plain_on_add_idle : handler_idle (on_add (Job := Demo.PlainJob)).
Proof. intros job n f p. done. Qed.

Lemma merge_into_copies_witness :
  let run := merge_into 0 1 Demo.mergeable in
  run.2 = inr tt /\
  _jobs (heap run.1 1) !! "j1" = Some Demo.noop /\
  _files (heap run.1 1) !! "/data/a.txt" = Some (Some "a.txt").
Proof.
  intros run.
  destruct (merge_into_copies 0 1 Demo.mergeable run.1 run.2
              plain_on_add_monotone plain_on_add_domain_errors (surjective_pairing run))
    as (Hcopied & _ & Hreturns).
  assert (run.2 = inr tt) as Hret.
  { apply Hreturns.
    - exact plain_on_add_idle.
    - intros nm [job Hnm].
      change (_jobs (heap Demo.mergeable 0))
        with ({[ "j1" := Demo.noop ]} : gmap string Demo.PlainJob) in Hnm.
      apply lookup_singleton_Some in Hnm as [<- _]. reflexivity.
    - intros path ap Hreg.
      change (_files (heap Demo.mergeable 0))
        with ({[ "/data/a.txt" := Some "a.txt" ]} : gmap string (option string)) in Hreg.
      apply lookup_singleton_Some in Hreg as [<- <-].
      split; [reflexivity|]. right. split; [reflexivity|]. vm_compute. eauto. }
  destruct (Hcopied Hret) as [Hjobs Hfiles].
  split; [exact Hret|]. split; [apply Hjobs; reflexivity|apply Hfiles; reflexivity].
Defined.

(** What the code does on the inputs that the statements below turn on. *)
Example add_file_registered_gone :
  fs Demo.without_file !! "/data/a.txt" = None /\
  add_file 0 "/data/a.txt" None Demo.without_file = (Demo.without_file, inr tt).
Proof. split; reflexivity. Qed.

Example build_registered_gone :
  let run := build (env := Demo.good_env) 0 "/out.zip" false Demo.without_file in
  run.2 = inl (OSError "/data/a.txt") /\ fs run.1 !! "/out.zip" = Some (ZipArchive []).
Proof. vm_compute. done. Qed.

Example build_job_and_file :
  let run := build (env := Demo.good_env) 0 "/out.zip" false Demo.ready in
  run.2 = inr tt /\
  fs run.1 !! "/out.zip"
  = Some (ZipArchive [("j1.job", Plain ("type=noop" +:+ nl)); ("a.txt", Plain "hello")]).
Proof. vm_compute. done. Qed.

(** A file registered without an archive path is stored under its path
    without the leading slash, and a job under its name. *)
Example build_rooted_file :
  let run := build (env := Demo.good_env) 0 "/out.zip" false Demo.rooted in
  run.2 = inr tt /\
  fs run.1 !! "/out.zip"
  = Some (ZipArchive [("j1.job", Plain ("type=noop" +:+ nl)); ("data/a.txt", Plain "hello")]).
Proof. vm_compute. done. Qed.

(** An archive that cannot be created: the build raises [IOError] and
    leaves nothing. *)
Example build_no_directory :
  build (env := Demo.good_env) 0 "/nodir/out.zip" false Demo.ready
  = (Demo.ready, inl (IOError "/nodir/out.zip")).
Proof. vm_compute. reflexivity. Qed.

(** What [ZipFile.write] makes of the names it is given. *)
Example stored_names :
  stored_name "/data/a.txt" = "data/a.txt" /\
  stored_name "lib//x/../y.jar" = "lib/y.jar" /\
  stored_name "../up.txt" = "../up.txt" /\
  stripped_name "/" = EmptyString.
Proof. vm_compute. done. Qed.

Example upload_bare_answer :
  (upload (env := Demo.bare_env) 1 "/out.zip" (Some "http://az/") None None None Demo.packed).2
  = inl (KeyError "projectId").
Proof. vm_compute. reflexivity. Qed.

Example upload_missing_archive :
  let run := upload (env := Demo.good_env) 1 "/gone.zip" (Some "http://az/") None None None
                    Demo.packed in
  run.2 = inl (AzkabanError "unable to find archive at '/gone.zip'") /\
  filter (fun e => is_post e = true) (trace run.1)
  = [EvPost "http://az"
            {[ "action" := "login"; "username" := "alice"; "password" := "secret" ]} ∅].
Proof. vm_compute. done. Qed.

Example main_without_quiet :
  main (env := Demo.good_env) 1 (mkArgs false (CmdView "j1")) Demo.packed
  = (Demo.packed, inl (NameError "get_formatted_stream_handler")).
Proof. reflexivity. Qed.

Example main_missing_job :
  let run := main (env := Demo.good_env) 1 (mkArgs true (CmdView "j9")) Demo.packed in
  run.2 = inl (SystemExit 1) /\ trace run.1 = [EvLog ERROR "missing job 'j9'"].
Proof. vm_compute. done. Qed.



(** C2 as stated does not hold: without url and alias, credential resolution
    raises [ValueError]. *)
Lemma get_credentials_claim_fails :
  ~ (forall (s s' : state Demo.PlainJob) (self : ref) (url user password alias : option string)
            (e : exn),
       _get_credentials (env := Demo.good_env) self url user password alias s = (s', inl e) ->
       exists msg, e = AzkabanError msg).
Proof.
  intros Hclaim.
  destruct (Hclaim Demo.packed Demo.packed 1 None None None None
              (ValueError "Either url or alias must be specified.") eq_refl) as [msg Hmsg].
  discriminate.
Qed.

Lemma good_env_answers_probes : answers_probes (env := Demo.good_env).
Proof.
  intros history u sid. simpl. unfold Demo.demo_server.
  rewrite bool_decide_eq_false_2; [eauto|].
  rewrite lookup_singleton_ne by done. done.
Qed.

Lemma good_env_answers_logins : answers_logins (env := Demo.good_env).
Proof.
  intros history u data Hlogin. simpl. unfold Demo.demo_server.
  rewrite bool_decide_eq_true_2 by done. eexists. split; [reflexivity|].
  right. rewrite lookup_singleton_eq. eauto.
Qed.

Lemma get_credentials_errors_witness :
  exists msg,
    (_get_credentials (env := Demo.good_env) 1 None None None (Some "dev") Demo.aliased).2
    = inl (AzkabanError msg).
Proof.
  destruct (get_credentials_errors (env := Demo.good_env) (ops := Demo.plain_ops)
              1 None None None (Some "dev") Demo.aliased) as (_ & Hdomain & _).
  destruct (Hdomain good_env_answers_probes good_env_answers_logins (or_introl eq_refl)
              Demo.aliased (AzkabanError "missing alias 'dev'")) as [msg Hmsg].
  - vm_compute. reflexivity.
  - exists "missing alias 'dev'". vm_compute. reflexivity.
Defined.

(** C6 as stated does not hold: an answer without [error] and without the
    fields of the operation is not returned, the lookup of [projectId] raises
    [KeyError]. *)
Lemma remote_claim_fails :
  ~ (forall (s s1 : state Demo.PlainJob) (self : ref) (archive : string)
            (url user password alias : option string) (u sid : string)
            (o : fobj) (r : Response) (res : gmap string string),
       _get_credentials (env := Demo.bare_env) self url user password alias s
       = (s1, inr (u, sid)) ->
       fs s1 !! archive = Some o ->
       @server Demo.bare_env (trace s1) (u +:+ "/manager") (upload_data self s1 sid)
               (upload_files o) = PostResponse r ->
       json r = Some res ->
       (forall err,
          res !! "error" = Some err ->
          exists s', upload (env := Demo.bare_env) self archive url user password alias s
                     = (s', inl (AzkabanError err))) /\
       (res !! "error" = None ->
        exists s', upload (env := Demo.bare_env) self archive url user password alias s
                   = (s', inr res))).
Proof.
  intros Hclaim.
  destruct (Hclaim Demo.packed
              (_get_credentials (env := Demo.bare_env) 1 (Some "http://az/") None None None
                                Demo.packed).1
              1 "/out.zip" (Some "http://az/") None None None "http://az" "tok-1"
              (Plain "PK") (mkResponse EmptyString (Some ∅)) ∅) as [_ Hreturns].
  - vm_compute. reflexivity.
  - vm_compute. reflexivity.
  - vm_compute. reflexivity.
  - reflexivity.
  - destruct (Hreturns eq_refl) as [s' Hrun]. vm_compute in Hrun. discriminate.
Qed.

Lemma remote_answers_witness :
  exists s',
    run (env := Demo.good_env) 1 "nightly" (Some "http://az/") None None None Demo.packed
    = (s', inr {[ "projectId" := "7"; "version" := "1"; "execid" := "42" ]}).
Proof.
  destruct (remote_answers (env := Demo.good_env)
              1 (Some "http://az/") None None None Demo.packed
              (_get_credentials (env := Demo.good_env) 1 (Some "http://az/") None None None
                                Demo.packed).1
              "http://az" "tok-1") as [_ Hrun].
  - vm_compute. reflexivity.
  - destruct (Hrun "nightly"
                (mkResponse EmptyString
                   (Some {[ "projectId" := "7"; "version" := "1"; "execid" := "42" ]}))
                {[ "projectId" := "7"; "version" := "1"; "execid" := "42" ]}) as [_ Hreturns].
    + vm_compute. reflexivity.
    + reflexivity.
    + apply (Hreturns "42"); vm_compute; reflexivity.
Defined.

Lemma remote_requests_witness :
  let s1 := (_get_credentials (env := Demo.good_env) 1 (Some "http://az/") None None None
                              Demo.packed).1 in
  exists logs,
    trace (upload (env := Demo.good_env) 1 "/out.zip" (Some "http://az/") None None None
                  Demo.packed).1 =
    trace s1 ++
    EvPost "http://az/manager"
           {[ "ajax" := "upload"; "session.id" := "tok-1"; "project" := "bar" ]}
           {[ "file" := ("file.zip", Plain "PK", "application/zip") ]} :: logs /\
    Forall (fun e => is_post e = false) logs.
Proof.
  intros s1.
  destruct (remote_requests (env := Demo.good_env)
              1 (Some "http://az/") None None None Demo.packed s1 "http://az" "tok-1")
    as (_ & Hupload & _).
  - vm_compute. reflexivity.
  - apply (Hupload "/out.zip" (Plain "PK") _
             (upload (env := Demo.good_env) 1 "/out.zip" (Some "http://az/") None None None
                     Demo.packed).2).
    + vm_compute. reflexivity.
    + vm_compute. reflexivity.
Defined.

Lemma get_credentials_alias_witness :
  let run := _get_credentials (env := Demo.good_env) 1 None None None (Some "prod")
                              Demo.aliased in
  run.2 = inr ("http://az", "tok-1") /\
  option_value (rc run.1) "prod" "session_id" = Some "tok-1" /\
  trace run.1 = [EvPrompt "azkaban password for bob: ";
                 EvPost "http://az"
                        {[ "action" := "login"; "username" := "bob"; "password" := "secret" ]}
                        ∅].
Proof.
  intros run.
  destruct (get_credentials_alias (env := Demo.good_env) 1 None None None "prod" Demo.aliased
              eq_refl) as (_ & _ & Hfound).
  destruct (Hfound "http://az/" "bob" EmptyString
              {[ "url" := "http://az/"; "user" := "bob" ]}) as [_ Hlogin];
    [vm_compute; reflexivity..|].
  destruct (Hlogin Demo.aliased (or_introl (conj eq_refl eq_refl))
              (mkResponse "{}" (Some {[ "session.id" := "tok-1" ]}))
              {[ "session.id" := "tok-1" ]}) as [_ Hstored];
    [vm_compute; reflexivity..|].
  unfold run. rewrite (Hstored "tok-1") by (vm_compute; reflexivity).
  vm_compute. done.
Defined.

(** * Further properties *)

(** ** Files and jobs of one project *)

Section ProjectMore.

Context {Job : Type} {ops : JobOps Job}.
Implicit Types (s : state Job) (self : ref) (path nm : string) (ap : option string).

(** X1: [add_file] returns exactly when the path is absolute and either is
    registered with this very destination or is not registered and exists on
    disk. *)
Theorem add_file_returns_iff s self path ap :
  (add_file self path ap s).2 = inr tt <->
  isabs path = true /\
  (_files (heap s self) !! path = Some ap \/
   (_files (heap s self) !! path = None /\ is_Some (fs s !! path))).
Proof.
  split.
  - destruct (add_file self path ap s) as [s' r] eqn:Hrun. simpl. intros ->.
    apply add_file_cases in Hrun.
    destruct Hrun as [[_ [msg ?]]|[(_ & _ & Habs & Hreg)|(_ & Habs & Hnew & Hfs & _)]];
      [done|auto..].
  - intros [Habs [Hreg|[Hnew Hfs]]].
    + by rewrite add_file_registered.
    + by rewrite add_file_new.
Qed.

(** X2: a call of [add_file] that returns leaves the files of the project
    as they were but for the path, now bound to the destination; it never
    changes the name or the jobs of the project, another project, the disk
    or the credential file, and sends, asks and prints nothing; a call that
    raises raises the domain error and changes nothing at all. *)
Theorem add_file_effect s self path ap s' r :
  add_file self path ap s = (s', r) ->
  touches_only self s s' /\
  name (heap s' self) = name (heap s self) /\
  _jobs (heap s' self) = _jobs (heap s self) /\
  (r = inr tt -> _files (heap s' self) = <[path := ap]> (_files (heap s self))) /\
  (forall e, r = inl e -> s' = s /\ exists msg, e = AzkabanError msg).
Proof.
  intros Hrun. pose proof (add_file_touches self path ap s) as Htouch.
  rewrite Hrun in Htouch. split; [exact Htouch|].
  apply add_file_cases in Hrun.
  destruct Hrun as [[-> [msg ->]]|[(-> & -> & _ & Hreg)|(-> & _ & _ & _ & ->)]].
  - split; [done|]. split; [done|]. split; [done|]. intros e0 [= <-]. eauto.
  - split; [done|]. split; [done|]. split; [|done]. intros _. by rewrite insert_id.
  - simpl. rewrite decide_True by done. done.
Qed.

(** X3: with handlers that only add, a name that has been passed to
    [add_job] is taken from then on: whether the first call returned or
    raised, a second call with the name raises the domain error and changes
    nothing, whatever job it brings. *)
Theorem add_job_twice s self nm (job job' : Job) s1 r :
  handler_monotone on_add ->
  add_job self nm job s = (s1, r) ->
  add_job self nm job' s1 = (s1, inl (AzkabanError ("duplicate job name " +:+ repr nm))).
Proof.
  intros Hmono Hrun. apply add_job_duplicate.
  destruct (_jobs (heap s self) !! nm) as [j0|] eqn:Hnm.
  - rewrite add_job_duplicate in Hrun by eauto. injection Hrun as <- _. eauto.
  - rewrite add_job_new in Hrun by done. injection Hrun as <- _.
    simpl. rewrite decide_True by done.
    destruct (Hmono job nm (fs s) (with_job s self nm job)) as (_ & Hkept & _).
    exists job. eapply lookup_weaken; [|exact Hkept]. apply lookup_insert_eq.
Qed.

End ProjectMore.

Lemma add_file_effect_witness :
  let run := add_file 1 "/data/a.txt" (Some "a.txt") Demo.with_file in
  _files (heap run.1 1) = <["/data/a.txt" := Some "a.txt"]> (_files Demo.bar) /\
  _jobs (heap run.1 1) = _jobs Demo.bar.
Proof.
  intros run.
  assert (add_file 1 "/data/a.txt" (Some "a.txt") Demo.with_file = (run.1, inr tt)) as Hrun
    by (vm_compute; reflexivity).
  destruct (add_file_effect _ _ _ _ _ _ Hrun) as (_ & _ & Hjobs & Hfiles & _).
  split; [exact (Hfiles eq_refl)|exact Hjobs].
Defined.

Lemma add_job_twice_witness :
  let added := (add_job 0 "j2" Demo.noop Demo.with_file).1 in
  add_job 0 "j2" (Demo.mkJob ∅) added
  = (added, inl (AzkabanError "duplicate job name 'j2'")).
Proof.
  intros added.
  apply (add_job_twice Demo.with_file 0 "j2" Demo.noop (Demo.mkJob ∅) added (inr tt)
           plain_on_add_monotone).
  vm_compute. reflexivity.
Defined.

(** ** Merging, again *)

Section MergeMore.

Context {Job : Type} {ops : JobOps Job}.
Implicit Types (s t : state Job) (self project : ref).

Lemma merge_into_source self project s :
  heap (merge_into self project s).1 self = heap s self.
Proof.
  rewrite merge_into_rounds.
  pose proof (job_rounds_source self project s) as Hsrc1.
  destruct (for_each (items (_jobs (heap s self))) (job_round project) s) as [s1 [e|[]]];
    simpl in *; [done|].
  pose proof (file_rounds_source self project s1) as Hsrc2. congruence.
Qed.

Lemma merge_into_extends self project s :
  handler_monotone on_add ->
  extends (heap s project) (heap (merge_into self project s).1 project).
Proof.
  intros Hmono. rewrite merge_into_rounds.
  pose proof (job_rounds_extend project (items (_jobs (heap s self))) s Hmono) as Hext1.
  destruct (for_each (items (_jobs (heap s self))) (job_round project) s) as [s1 [e|[]]];
    simpl in *; [done|].
  pose proof (file_rounds_extend project (items (_files (heap s1 self))) s1) as [Hext2 _].
  by eapply extends_trans.
Qed.

(** Rounds over files that all return have seen absolute paths only. *)
Lemma file_rounds_absolute project (l : list (string * option string)) s s' :
  for_each l (file_round project) s = (s', inr tt) ->
  forall path ap, (path, ap) ∈ l -> isabs path = true.
Proof.
  intros Hrun path ap Hin. apply list_elem_of_split in Hin as (l1 & l2 & ->).
  destruct (for_each_returns _ _ _ _ Hrun l1 (path, ap) l2 eq_refl)
    as (t1 & t2 & _ & Hadd & _).
  simpl in Hadd. apply add_file_cases in Hadd.
  destruct Hadd as [[_ [msg ?]]|[(_ & _ & Habs & _)|(_ & Habs & _)]]; done.
Qed.

(** Rounds over entries that the project holds already, with absolute
    paths, return and change nothing, whatever is on disk. *)
Lemma file_rounds_registered project (l : list (string * option string)) s :
  (forall path ap, (path, ap) ∈ l ->
     isabs path = true /\ _files (heap s project) !! path = Some ap) ->
  for_each l (file_round project) s = (s, inr tt).
Proof.
  induction l as [|[path ap] l IH]; intros Hl; [done|].
  rewrite for_each_cons. simpl. destruct (Hl path ap) as [Habs Hreg]; [left|].
  rewrite add_file_registered by done. apply IH.
  intros p a Hin. apply Hl. by right.
Qed.

(** X4: with handlers that raise nothing but the domain error,
    [merge_into] raises nothing but the domain error. *)
Theorem merge_into_raises_domain_error self project s s' e :
  handler_domain_errors on_add ->
  merge_into self project s = (s', inl e) ->
  exists msg, e = AzkabanError msg.
Proof.
  intros Hdom. rewrite merge_into_rounds.
  destruct (for_each (items (_jobs (heap s self))) (job_round project) s)
    as [s1 [e1|[]]] eqn:Hjobs.
  - intros [= _ <-]. by eapply job_rounds_raise.
  - apply file_rounds_raise.
Qed.

(** X5: a project merged into itself is never changed.  The call raises the
    domain error for a job name of the project as soon as the project has a
    job; it returns when the project has no job and all its registered paths
    are absolute. *)
Theorem merge_into_self self s :
  (merge_into self self s).1 = s /\
  (_jobs (heap s self) <> ∅ ->
   exists nm,
     is_Some (_jobs (heap s self) !! nm) /\
     (merge_into self self s).2 = inl (AzkabanError ("duplicate job name " +:+ repr nm))) /\
  (_jobs (heap s self) = ∅ ->
   (forall path ap, _files (heap s self) !! path = Some ap -> isabs path = true) ->
   (merge_into self self s).2 = inr tt).
Proof.
  rewrite merge_into_rounds.
  destruct (items (_jobs (heap s self))) as [|[nm job] l] eqn:Hitems.
  - apply map_to_list_empty_iff in Hitems. simpl. split; [|split].
    + apply (for_each_invariant (fun t => t = s)); [|done].
      intros [path ap] t Hin ->. apply elem_of_map_to_list in Hin. simpl.
      destruct (add_file self path ap s) as [s' r] eqn:Hadd. apply add_file_cases in Hadd.
      destruct Hadd as [[-> _]|[(-> & _)|(_ & _ & Hnew & _)]]; [done..|congruence].
    + done.
    + intros _ Habs. rewrite file_rounds_registered; [done|].
      intros path ap Hin. apply elem_of_map_to_list in Hin. eauto.
  - assert (_jobs (heap s self) !! nm = Some job) as Hnm.
    { apply elem_of_map_to_list. unfold items in Hitems. rewrite Hitems. left. }
    rewrite for_each_cons. simpl. rewrite add_job_duplicate by eauto. simpl.
    split; [done|]. split; [eauto|]. intros Hempty. by rewrite Hempty in Hnm.
Qed.

(** X6: with handlers that only add, the target of a merge keeps its name
    and everything it held, whether the merge returns or raises. *)
Theorem merge_into_grows self project s s' r :
  handler_monotone on_add ->
  merge_into self project s = (s', r) ->
  name (heap s' project) = name (heap s project) /\
  (forall nm job, _jobs (heap s project) !! nm = Some job ->
                  _jobs (heap s' project) !! nm = Some job) /\
  (forall path ap, _files (heap s project) !! path = Some ap ->
                   _files (heap s' project) !! path = Some ap).
Proof.
  intros Hmono Hrun. pose proof (merge_into_extends self project s Hmono) as (Hn & Hj & Hf).
  rewrite Hrun in Hn, Hj, Hf. simpl in *. split; [done|]. split.
  - intros nm job Hnm. by eapply lookup_weaken.
  - intros path ap Hp. by eapply lookup_weaken.
Qed.

(** X7: a merge that has returned cannot be repeated when the source has a
    job: with handlers that only add, the second merge raises the domain
    error for a job name and changes nothing.  When the source has no job
    the second merge returns and changes nothing, even if the files have
    left the disk in between. *)
Theorem merge_into_again self project s s1 :
  merge_into self project s = (s1, inr tt) ->
  (handler_monotone on_add ->
   _jobs (heap s self) <> ∅ ->
   exists nm,
     merge_into self project s1
     = (s1, inl (AzkabanError ("duplicate job name " +:+ repr nm)))) /\
  (_jobs (heap s self) = ∅ ->
   forall f : fsys, merge_into self project (set_fs f s1) = (set_fs f s1, inr tt)).
Proof.
  intros Hrun. pose proof (merge_into_source self project s) as Hsrc.
  rewrite Hrun in Hsrc. simpl in Hsrc. rewrite merge_into_rounds in Hrun. split.
  - intros Hmono Hjobs. rewrite merge_into_rounds, Hsrc.
    destruct (for_each (items (_jobs (heap s self))) (job_round project) s)
      as [t [e|[]]] eqn:Hfirst; [done|].
    destruct (items (_jobs (heap s self))) as [|[nm job] l] eqn:Hitems.
    { by apply map_to_list_empty_iff in Hitems. }
    exists nm. rewrite for_each_cons. simpl.
    destruct (job_rounds_return project _ s t Hmono Hfirst nm job) as [_ Hthere]; [left|].
    pose proof (file_rounds_extend project (items (_files (heap t self))) t) as [_ Hsame].
    rewrite Hrun in Hsame. simpl in Hsame.
    rewrite add_job_duplicate; [done|]. rewrite Hsame. eauto.
  - intros Hempty f. rewrite merge_into_rounds. simpl. rewrite Hsrc, Hempty.
    rewrite Hempty in Hrun. unfold items in *. rewrite map_to_list_empty in *. simpl in *.
    apply file_rounds_registered. intros path ap Hin. rewrite Hsrc in Hin. split.
    + by eapply file_rounds_absolute.
    + by eapply (file_rounds_return project _ s s1 Hrun).
Qed.

End MergeMore.

Lemma merge_into_raises_domain_error_witness :
  exists msg, (merge_into 1 0 Demo.clash).2 = inl (AzkabanError msg).
Proof.
  destruct (merge_into_raises_domain_error 1 0 Demo.clash (merge_into 1 0 Demo.clash).1
              (AzkabanError "duplicate job name 'j2'") plain_on_add_domain_errors)
    as [msg Hmsg].
  - vm_compute. reflexivity.
  - exists "duplicate job name 'j2'". vm_compute. reflexivity.
Defined.

Lemma merge_into_grows_witness :
  _jobs (heap (merge_into 1 0 Demo.clash).1 0) !! "j2" = Some Demo.noop.
Proof.
  assert (merge_into 1 0 Demo.clash
          = ((merge_into 1 0 Demo.clash).1, (merge_into 1 0 Demo.clash).2)) as Hrun
    by (vm_compute; reflexivity).
  destruct (merge_into_grows 1 0 Demo.clash _ _ plain_on_add_monotone Hrun) as (_ & Hjobs & _).
  apply Hjobs. reflexivity.
Defined.

Lemma merge_into_again_witness :
  let merged := (merge_into 1 0 Demo.with_file).1 in
  exists nm,
    merge_into 1 0 merged = (merged, inl (AzkabanError ("duplicate job name " +:+ repr nm))).
Proof.
  intros merged.
  assert (merge_into 1 0 Demo.with_file = (merged, inr tt)) as Hrun
    by (vm_compute; reflexivity).
  destruct (merge_into_again 1 0 Demo.with_file merged Hrun) as [Hjobs _].
  apply Hjobs; [exact plain_on_add_monotone|].
  intros Hempty. apply (f_equal (fun m => m !! "j1")) in Hempty.
  vm_compute in Hempty. discriminate.
Defined.

(** ** Building, again *)

Section BuildMore.

Context {Job : Type} {env : Env} {ops : JobOps Job}.
Implicit Types (s t : state Job) (self : ref) (path : string) (es : list (string * fobj)).

Lemma build_job_round_keeps self path s nm job t :
  building self path s t ->
  building self path s (build_job_round self path (nm, job) t).1.
Proof.
  intros ([es Hfs] & Hrc & Hheap).
  unfold build_job_round, bind, call_handler.
  destruct (on_build job nm (fs t) (heap t self)) as [p' [e|]].
  - simpl. split; [eauto|]. split; [done|]. intros r Hr. simpl. rewrite decide_False by done. auto.
  - unfold temppath, bind, gets, try_finally, modify, zip_write. simpl.
    pose proof (mkstemp_fresh (fs t)) as Hfresh.
    set (tmp := mkstemp (fs t)) in *.
    assert (tmp <> path) as Hne.
    { intros ->. rewrite Hfs, lookup_insert_eq in Hfresh. discriminate. }
    rewrite lookup_insert_eq, stripped_name_job. rewrite lookup_insert_ne by done. simpl.
    split; [|split; [done|]].
    + eexists. rewrite Hfs, lookup_insert_eq. simpl.
      rewrite delete_insert_ne by done. rewrite delete_insert_eq.
      rewrite delete_id by (by rewrite <- Hfs). by rewrite insert_insert_eq.
    + intros r Hr. simpl. rewrite decide_False by done. auto.
Qed.

Lemma build_file_round_keeps self path s fpath apath t :
  building self path s t ->
  building self path s (build_file_round path (fpath, apath) t).1.
Proof.
  intros ([es Hfs] & Hrc & Hheap). unfold build_file_round, zip_write.
  destruct (fs t !! fpath) as [o|]; simpl; [|split; eauto].
  destruct (is_empty _); simpl; [split; eauto|].
  split; [|done]. eexists. by rewrite Hfs, insert_insert_eq.
Qed.

Lemma build_keeps self path overwrite s s' r :
  build self path overwrite s = (s', r) ->
  (fs s' = fs s \/ exists es, fs s' = <[path := ZipArchive es]> (fs s)) /\
  rc s' = rc s /\
  (forall r', r' <> self -> heap s' r' = heap s r').
Proof.
  destruct (decide (is_Some (fs s !! path) /\ overwrite = false)) as [[Hex ->]|Hgo].
  { rewrite build_exists by done. intros [= <- _]. auto. }
  destruct (decide (_jobs (heap s self) = ∅ /\ _files (heap s self) = ∅)) as [[Hj Hf]|Hsome].
  { rewrite build_empty by done. intros [= <- _]. auto. }
  rewrite build_opens by done.
  destruct (can_create (fs s) path).
  2:{ intros [= <- _]. auto. }
  cbv beta iota. change (negb true) with false. cbv iota.
  set (s1 := set_fs (<[path := ZipArchive []]> (fs s)) s).
  assert (building self path s s1) as Hs1.
  { split; [by exists []|done]. }
  unfold bind at 1. unfold try_finally, zip_close, ret.
  unfold bind at 1. unfold self_jobs, gets. unfold bind at 1.
  pose proof (for_each_invariant (building self path s) (items (_jobs (heap s1 self)))
                (build_job_round self path)
                (fun x t _ Ht => match x with
                                 | (nm, job) => build_job_round_keeps self path s nm job t Ht
                                 end) s1 Hs1) as Ht1.
  destruct (for_each (items (_jobs (heap s1 self))) (build_job_round self path) s1)
    as [t1 [e|[]]]; simpl in Ht1.
  { intros [= <- _]. destruct Ht1 as (Hfs & Hrc & Hheap). eauto. }
  unfold bind at 1. unfold self_files, gets.
  pose proof (for_each_invariant (building self path s) (items (_files (heap t1 self)))
                (build_file_round path)
                (fun x t _ Ht => match x with
                                 | (fpath, apath) =>
                                     build_file_round_keeps self path s fpath apath t Ht
                                 end) t1 Ht1) as Ht2.
  destruct (for_each (items (_files (heap t1 self))) (build_file_round path) t1)
    as [t2 [e|[]]]; simpl in Ht2; destruct Ht2 as ([es Hfs] & Hrc & Hheap).
  { intros [= <- _]. eauto. }
  unfold bind, human_size, log, modify. rewrite Hfs, lookup_insert_eq.
  intros [= <- _]. simpl. eauto.
Qed.

(** X8: whatever the handlers do to the project and however it ends,
    [build] leaves on disk nothing but, at most, an archive at the
    destination: no scratch file of [temppath] stays behind and no other
    path is touched; the credential file and the other projects are as
    before. *)
Theorem build_footprint self path overwrite s s' r :
  build self path overwrite s = (s', r) ->
  (fs s' = fs s \/ exists es, fs s' = <[path := ZipArchive es]> (fs s)) /\
  rc s' = rc s /\
  (forall r', r' <> self -> heap s' r' = heap s r').
Proof. apply build_keeps. Qed.

(** The files are written until one is not on disk. *)
Lemma build_file_rounds_stop self path (disk : fsys) (l : list (string * option string)) t es :
  fs t = <[path := ZipArchive es]> disk ->
  (forall fpath apath, (fpath, apath) ∈ l -> stripped_name (default fpath apath) <> EmptyString) ->
  (exists fpath apath, (fpath, apath) ∈ l /\ disk !! fpath = None /\ fpath <> path) ->
  exists fpath apath t' es',
    (fpath, apath) ∈ l /\ disk !! fpath = None /\ fpath <> path /\
    for_each l (build_file_round path) t = (t', inl (OSError fpath)) /\
    fs t' = <[path := ZipArchive es']> disk.
Proof.
  revert t es.
  induction l as [|[f a] l IH]; intros t es Hfs Hnames (fpath & apath & Hin & Hgone & Hne).
  { by apply elem_of_nil in Hin. }
  rewrite for_each_cons. unfold build_file_round at 1. unfold zip_write.
  destruct (fs t !! f) as [o|] eqn:Hf.
  - assert (is_empty (stripped_name (default f a)) = false) as ->.
    { pose proof (Hnames f a ltac:(left)) as Hname. by destruct (stripped_name (default f a)). }
    apply elem_of_cons in Hin as [[= -> ->]|Hin].
    { rewrite Hfs, lookup_insert_ne in Hf by done. congruence. }
    destruct (IH (set_fs (<[path := ZipArchive (zip_entries (fs t !! path)
                                                  ++ [(stored_name (default f a), o)])]> (fs t)) t)
                 (zip_entries (fs t !! path) ++ [(stored_name (default f a), o)]))
      as (f' & a' & t' & es' & Hin' & Hgone' & Hne' & Hrun & Hfs').
    { simpl. by rewrite Hfs, insert_insert_eq. }
    { intros f' a' Hin'. apply Hnames. by right. }
    { eauto. }
    exists f', a', t', es'. repeat split; try done. by right.
  - exists f, a, t, es. assert (f <> path) as Hfp.
    { intros ->. rewrite Hfs, lookup_insert_eq in Hf. discriminate. }
    rewrite Hfs, lookup_insert_ne in Hf by done. repeat split; try done. left.
Qed.

(** X9: when the build gets past its checks, the archive can be created at
    the destination, the [on_build] handlers return and leave the
    registered files alone, every registered file has a name to be stored
    under, and a registered file other than the destination is not on disk,
    [build] raises [OSError] for such a file, not the domain error, and
    leaves an unfinished archive at the destination. *)
Theorem build_missing_file self path overwrite s :
  ~ (is_Some (fs s !! path) /\ overwrite = false) ->
  can_create (fs s) path = true ->
  handler_silent on_build ->
  storable (_files (heap s self)) ->
  (exists fpath apath,
     _files (heap s self) !! fpath = Some apath /\ fs s !! fpath = None /\ fpath <> path) ->
  exists fpath apath s' es,
    _files (heap s self) !! fpath = Some apath /\ fs s !! fpath = None /\
    build self path overwrite s = (s', inl (OSError fpath)) /\
    fs s' = <[path := ZipArchive es]> (fs s).
Proof.
  intros Hgo Hcreate Hsilent Hnames (f0 & a0 & Hreg0 & Hgone0 & Hne0).
  rewrite build_opens; [|done|].
  2:{ intros [_ Hf]. by rewrite Hf in Hreg0. }
  rewrite Hcreate. cbv beta iota. change (negb true) with false. cbv iota.
  set (s1 := set_fs (<[path := ZipArchive []]> (fs s)) s).
  destruct (build_job_rounds_run self path (fs s) (items (_jobs (heap s self))) s1 [] Hsilent)
    as (t1 & Hrun1 & Hfs1 & Hfiles1 & _); [done|].
  destruct (build_file_rounds_stop self path (fs s) (items (_files (heap s self))) t1 _ Hfs1)
    as (f & a & t2 & es & Hin & Hgone & Hne & Hrun2 & Hfs2).
  { intros f a Hin. apply elem_of_map_to_list in Hin. by apply (Hnames f a). }
  { exists f0, a0. split; [by apply elem_of_map_to_list|done]. }
  apply elem_of_map_to_list in Hin.
  exists f, a, t2, es. split; [done|]. split; [done|]. split; [|done].
  unfold bind at 1. unfold try_finally, zip_close, ret.
  unfold bind at 1. unfold self_jobs, gets. unfold bind at 1.
  change (_jobs (heap s1 self)) with (_jobs (heap s self)). rewrite Hrun1.
  unfold bind at 1. unfold self_files, gets. rewrite Hfiles1.
  change (_files (heap s1 self)) with (_files (heap s self)). by rewrite Hrun2.
Qed.

End BuildMore.

(** ** Credentials, again *)

Lemma rstrip_no_trailing (c : ascii) (s v : string) :
  rstrip c s <> v +:+ String c EmptyString.
Proof.
  revert v. induction s as [|d s IH]; intros v; simpl.
  - by destruct v.
  - destruct (Ascii.eqb d c && is_empty (rstrip c s)) eqn:Hstrip.
    + by destruct v.
    + destruct v as [|e v]; simpl.
      * intros [= -> Hr]. rewrite Hr, Ascii.eqb_refl in Hstrip. discriminate.
      * intros [= _ Hr]. by apply IH in Hr.
Qed.

Section CredentialsMore.

Context {Job : Type} {env : Env}.
Implicit Types (s t : state Job) (self : ref) (url user password alias : option string).

Lemma asked_frame user password t :
  heap (asked user password t) = heap t /\ fs (asked user password t) = fs t /\
  rc (asked user password t) = rc t.
Proof. unfold asked. by destruct (truthy_opt password). Qed.

(** What a login leaves alone, and what it returns. *)
Lemma login_block_frame (u : string) user password alias (parser : config) t t' r :
  login_block u user password alias parser t = (t', r) ->
  heap t' = heap t /\ fs t' = fs t /\
  (truthy_opt alias = false \/ (exists e, r = inl e) -> rc t' = rc t) /\
  (forall u' tok, r = inr (u', tok) -> u' = u).
Proof.
  rewrite login_block_run. destruct (asked_frame user password t) as (Hh & Hf & Hr).
  intros Hrun.
  repeat case_match; simplify_eq; simpl; rewrite ?Hh, ?Hf, ?Hr;
    (split; [done|]; split; [done|]; split; [|by intros ? ? [= -> _]]);
    try done.
  intros [?|[e ?]]; done.
Qed.

Lemma get_credentials_keeps self url user password alias s s1 r :
  _get_credentials self url user password alias s = (s1, r) ->
  heap s1 = heap s /\ fs s1 = fs s /\
  (truthy_opt alias = false \/ (exists e, r = inl e) -> rc s1 = rc s).
Proof.
  rewrite get_credentials_blocks. unfold bind at 1.
  destruct (lookup_block url user alias s) as [s0 [e|[[[parser u0] usr] sid]]] eqn:Hlookup;
    apply lookup_block_state in Hlookup as ->.
  { by intros [= <- _]. }
  cbv beta iota zeta. unfold bind. rewrite probe_block_run.
  destruct (truthy_opt sid).
  - destruct (server _ _ _ _) as [e|resp]; [by intros [= <- _]|].
    destruct (truthy (text resp)).
    + intros Hrun. apply login_block_frame in Hrun as (Hh & Hf & Hr & _). done.
    + intros [= <- <-]. split; [done|]. split; [done|]. by intros [?|[e ?]].
  - intros Hrun. apply login_block_frame in Hrun as (Hh & Hf & Hr & _). done.
Qed.

(** X10: credential resolution never touches a project or the disk.  It
    leaves the credential file as it is when no alias is given, and also
    when it raises: the file is written only by a resolution that returns. *)
Theorem get_credentials_frame self url user password alias s s1 r :
  _get_credentials self url user password alias s = (s1, r) ->
  heap s1 = heap s /\ fs s1 = fs s /\
  (truthy_opt alias = false \/ (exists e, r = inl e) -> rc s1 = rc s).
Proof. apply get_credentials_keeps. Qed.

(** X11: with a url and no alias no probe is sent.  The user is asked for a
    password unless one was supplied and one login request goes to the url
    without its trailing slashes.  A failure of the request is raised as the
    caller's translation of it, an [error] of the answer as the domain
    error, and the session id of a good answer is returned with the url. *)
Theorem get_credentials_url self url user password alias s :
  truthy_opt alias = false ->
  truthy_opt url = true ->
  let u := rstrip "/" (str_opt url) in
  let s2 := emit (login_event u user password) (asked user password s) in
  (forall e,
     server (trace (asked user password s)) u (login_data user password) ∅ = PostRaises e ->
     _get_credentials self url user password alias s = (s2, inl (translated e))) /\
  (forall r res,
     server (trace (asked user password s)) u (login_data user password) ∅ = PostResponse r ->
     json r = Some res ->
     (forall err,
        res !! "error" = Some err ->
        _get_credentials self url user password alias s = (s2, inl (AzkabanError err))) /\
     (forall tok,
        res !! "error" = None ->
        res !! "session.id" = Some tok ->
        _get_credentials self url user password alias s = (s2, inr (u, tok)))).
Proof.
  intros Ha Hu u s2.
  assert (_get_credentials self url user password alias s
          = login_block u user password alias empty_config s) as ->.
  { rewrite get_credentials_blocks. unfold bind at 1. rewrite lookup_url by done.
    cbv beta iota zeta. unfold bind at 1. rewrite probe_block_run.
    by change (truthy_opt None) with false. }
  rewrite login_block_run. cbv zeta. fold s2. split.
  - by intros e ->.
  - intros r res -> ->. rewrite Ha. split.
    + by intros err ->.
    + by intros tok -> ->.
Qed.

(** X12: an alias overrides the url and the user that are passed along:
    the outcome of a resolution with an alias does not depend on them. *)
Theorem get_credentials_alias_overrides self url user url' user' password (a : string) s :
  truthy a = true ->
  _get_credentials self url user password (Some a) s
  = _get_credentials self url' user' password (Some a) s.
Proof.
  intros Ha. rewrite !get_credentials_blocks. unfold bind at 1 3.
  assert (lookup_block url user (Some a) s = lookup_block url' user' (Some a) s) as ->; [|done].
  unfold lookup_block. simpl. by rewrite Ha.
Qed.

(** The url that a resolution returns is the url it looked up, stripped. *)
Lemma get_credentials_returns self url user password alias s s1 (u sid : string) :
  _get_credentials self url user password alias s = (s1, inr (u, sid)) ->
  exists parser u0 usr sid0,
    lookup_block url user alias s = (s, inr (parser, u0, usr, sid0)) /\
    u = rstrip "/" u0.
Proof.
  rewrite get_credentials_blocks. unfold bind at 1.
  destruct (lookup_block url user alias s) as [s0 [e|[[[parser u0] usr] sid0]]] eqn:Hlookup;
    apply lookup_block_state in Hlookup as ->; [done|].
  cbv beta iota zeta. unfold bind. rewrite probe_block_run. intros Hrun.
  exists parser, u0, usr, sid0. split; [done|].
  destruct (truthy_opt sid0).
  - destruct (server _ _ _ _) as [e|resp]; [done|].
    destruct (truthy (text resp)).
    + apply login_block_frame in Hrun as (_ & _ & _ & Hu). by apply (Hu u sid).
    + by injection Hrun as _ <- _.
  - apply login_block_frame in Hrun as (_ & _ & _ & Hu). by apply (Hu u sid).
Qed.

(** X13: the url that credential resolution returns never ends with a
    slash. *)
Theorem get_credentials_no_trailing_slash self url user password alias s s1 (u sid : string) :
  _get_credentials self url user password alias s = (s1, inr (u, sid)) ->
  forall v, u <> v +:+ "/".
Proof.
  intros Hrun v. apply get_credentials_returns in Hrun as (parser & u0 & usr & sid0 & _ & ->).
  apply rstrip_no_trailing.
Qed.

End CredentialsMore.

Section TokenCache.

Context {Job : Type} {env : Env}.
Implicit Types (s t : state Job) (self : ref) (url user password alias : option string).

Lemma lookup_alias_returns url user (a : string) s parser (u0 : string) usr sid :
  truthy a = true ->
  lookup_block url user (Some a) s = (s, inr (parser, u0, usr, sid)) ->
  parser = rc_parser s /\
  exists usr0 sid0 sec,
    usr = Some usr0 /\ sid = Some sid0 /\ sections (rc s) !! a = Some sec /\
    option_value (rc_parser s) a "url" = Some u0 /\
    option_value (rc_parser s) a "user" = Some usr0 /\
    option_value (rc_parser s) a "session_id" = Some sid0.
Proof.
  intros Ha. destruct (sections (rc s) !! a) as [sec|] eqn:Hsec.
  - destruct (option_value (rc_parser s) a "url") as [u1|] eqn:Hurl.
    + destruct (rc_parser_default s a sec "user" Hsec) as [usr0 Huser]; [by left|].
      destruct (rc_parser_default s a sec "session_id" Hsec) as [sid0 Hsid]; [by right|].
      rewrite (lookup_alias_found _ _ _ _ u1 usr0 sid0) by done.
      intros [= <- <- <- <-]. split; [done|]. by exists usr0, sid0, sec.
    + rewrite lookup_url_missing by eauto. discriminate.
  - rewrite lookup_alias_missing by done. discriminate.
Qed.

(** The credential file after a login under the alias [a]. *)
Lemma stored_values (a tok : string) (sec : gmap string string) s t :
  sections (rc s) !! a = Some sec ->
  rc t = mkConfig (defaults (rc_parser s)) (<[a := <["session_id" := tok]> sec]> (sections (rc s))) ->
  option_value (rc_parser t) a "session_id" = Some tok /\
  option_value (rc_parser t) a "url" = option_value (rc_parser s) a "url" /\
  option_value (rc_parser t) a "user" = option_value (rc_parser s) a "user".
Proof.
  intros Hsec Hrc. unfold option_value, rc_parser. rewrite Hrc. simpl.
  rewrite lookup_insert_eq, Hsec, lookup_insert_eq.
  rewrite !lookup_insert_ne by done.
  rewrite <- (assoc_L (∪)), (idemp_L (∪)). done.
Qed.

Lemma get_credentials_cached self url user password (a : string) s s1 (u tok : string) :
  truthy a = true ->
  _get_credentials self url user password (Some a) s = (s1, inr (u, tok)) ->
  option_value (rc_parser s1) a "session_id" = Some tok /\
  option_value (rc_parser s1) a "url" = option_value (rc_parser s) a "url" /\
  option_value (rc_parser s1) a "user" = option_value (rc_parser s) a "user" /\
  exists u0, option_value (rc_parser s) a "url" = Some u0 /\ u = rstrip "/" u0.
Proof.
  intros Ha Hrun.
  destruct (get_credentials_returns _ _ _ _ _ _ _ _ _ Hrun)
    as (parser & u0 & usr & sid & Hlookup & ->).
  destruct (lookup_alias_returns _ _ _ _ _ _ _ _ Ha Hlookup)
    as (-> & usr0 & sid0 & sec & -> & -> & Hsec & Hurl & Huser & Hsid).
  rewrite get_credentials_blocks in Hrun. unfold bind at 1 in Hrun.
  rewrite Hlookup in Hrun. cbv beta iota zeta in Hrun. unfold bind in Hrun.
  rewrite probe_block_run in Hrun. simpl in Hrun.
  assert (forall t, rc t = rc s ->
            login_block (rstrip "/" u0) (Some usr0) password (Some a) (rc_parser s) t
            = (s1, inr (rstrip "/" u0, tok)) ->
            option_value (rc_parser s1) a "session_id" = Some tok /\
            option_value (rc_parser s1) a "url" = option_value (rc_parser s) a "url" /\
            option_value (rc_parser s1) a "user" = option_value (rc_parser s) a "user")
    as Hlogin.
  { intros t Ht. rewrite login_block_run. simpl. rewrite Ha, Hsec.
    clear Hrun. destruct (server _ _ _ _) as [e|resp]; [done|].
    destruct (json resp) as [res|]; [|done].
    destruct (res !! "error"); [done|].
    destruct (res !! "session.id") as [tok'|]; [|done].
    intros [= <- <-]. apply (stored_values a _ sec s); done. }
  assert (option_value (rc_parser s1) a "session_id" = Some tok /\
          option_value (rc_parser s1) a "url" = option_value (rc_parser s) a "url" /\
          option_value (rc_parser s1) a "user" = option_value (rc_parser s) a "user")
    as (H1 & H2 & H3); [|eauto 10].
  destruct (truthy sid0).
  - destruct (server _ _ _ _) as [e|resp]; [done|].
    destruct (truthy (text resp)).
    + by refine (Hlogin _ _ Hrun).
    + injection Hrun as <- <-. done.
  - by refine (Hlogin _ _ Hrun).
Qed.

(** X14: the session id that a resolution with an alias returns is the
    session id that the credential file then holds for the alias, and the
    url returned is the url of the alias without its trailing slashes; url
    and user of the alias are never rewritten. *)
Theorem get_credentials_caches self url user password (a : string) s s1 (u tok : string) :
  truthy a = true ->
  _get_credentials self url user password (Some a) s = (s1, inr (u, tok)) ->
  option_value (rc_parser s1) a "session_id" = Some tok /\
  option_value (rc_parser s1) a "url" = option_value (rc_parser s) a "url" /\
  option_value (rc_parser s1) a "user" = option_value (rc_parser s) a "user" /\
  exists u0, option_value (rc_parser s) a "url" = Some u0 /\ u = rstrip "/" u0.
Proof. apply get_credentials_cached. Qed.

(** X15: a session id that a resolution with an alias has returned is
    reused by the next resolution with the alias for as long as the server
    answers the probe with an empty body: the next resolution sends the
    probe and nothing else, asks no password, and returns the same url and
    session id, whatever url, user and password are passed along. *)
Theorem get_credentials_reuses self url user password url' user' password' (a : string)
    s s1 (u tok : string) r :
  truthy a = true ->
  _get_credentials self url user password (Some a) s = (s1, inr (u, tok)) ->
  truthy tok = true ->
  server (trace s1) (u +:+ "/manager") {[ "session.id" := tok ]} ∅ = PostResponse r ->
  truthy (text r) = false ->
  _get_credentials self url' user' password' (Some a) s1
  = (emit (probe_event u tok) s1, inr (u, tok)).
Proof.
  intros Ha Hrun Htok Hprobe Hbody.
  destruct (get_credentials_cached _ _ _ _ _ _ _ _ _ Ha Hrun)
    as (Hsid & Hurl & Huser & u0 & Hu0 & ->).
  assert (exists usr0, option_value (rc_parser s1) a "user" = Some usr0) as [usr0 Husr0].
  { destruct (sections (rc s1) !! a) as [sec|] eqn:Hsec.
    - apply (rc_parser_default s1 a sec "user" Hsec). by left.
    - unfold option_value in Hsid. simpl in Hsid. by rewrite Hsec in Hsid. }
  rewrite get_credentials_blocks. unfold bind at 1.
  rewrite (lookup_alias_found _ _ _ _ u0 usr0 tok) by congruence.
  cbv beta iota zeta. unfold bind. rewrite probe_block_run. simpl.
  by rewrite Htok, Hprobe, Hbody.
Qed.

End TokenCache.

(** ** The remote operations, again *)

Section RemoteMore.

Context {Job : Type} {env : Env} {ops : JobOps Job}.
Implicit Types (s t : state Job) (self : ref) (url user password alias : option string).

(** X16: [upload] of an archive that cannot be opened raises the domain
    error before any request is sent: the state is the one that credential
    resolution left. *)
Theorem upload_missing self (archive : string) url user password alias s s1 (u sid : string) :
  _get_credentials self url user password alias s = (s1, inr (u, sid)) ->
  fs s1 !! archive = None ->
  upload self archive url user password alias s
  = (s1, inl (AzkabanError ("unable to find archive at " +:+ repr archive))).
Proof. intros Hcred Harchive. by rewrite (upload_run _ _ _ _ _ _ _ s1 u sid Hcred), Harchive. Qed.

(** X17: how [upload] and [run] report a request that fails.  A failure
    to connect and a malformed URL become domain errors with their own
    messages; [run] lets every other exception through as it is; [upload]
    reports every [IOError] of the request as an archive that cannot be
    found, although the archive was opened, and lets the rest through. *)
Theorem remote_request_failures self url user password alias s s1 (u sid : string) :
  _get_credentials self url user password alias s = (s1, inr (u, sid)) ->
  (forall (flow : string) e,
     server (trace s1) (u +:+ "/executor") (run_data self s1 sid flow) ∅ = PostRaises e ->
     (run self flow url user password alias s).2 =
     inl (match e with
          | ConnectionError => AzkabanError "unable to connect to azkaban server"
          | MissingSchema => AzkabanError "invalid azkaban server url"
          | _ => e
          end)) /\
  (forall (archive : string) o e,
     fs s1 !! archive = Some o ->
     server (trace s1) (u +:+ "/manager") (upload_data self s1 sid) (upload_files o)
     = PostRaises e ->
     (upload self archive url user password alias s).2 =
     inl (match e with
          | ConnectionError => AzkabanError "unable to connect to azkaban server"
          | MissingSchema => AzkabanError "invalid azkaban server url"
          | IOError _ => AzkabanError ("unable to find archive at " +:+ repr archive)
          | _ => e
          end)).
Proof.
  intros Hcred. split.
  - intros flow e Hfail. rewrite (run_run _ _ _ _ _ _ _ s1 u sid Hcred). cbv zeta.
    rewrite Hfail. by destruct e.
  - intros archive o e Harchive Hfail.
    rewrite (upload_run _ _ _ _ _ _ _ s1 u sid Hcred), Harchive. cbv zeta.
    rewrite Hfail. by destruct e.
Qed.

(** X18: answers that the operations do not expect are not turned into
    the domain error.  A body that is not JSON raises [ValueError]; a JSON
    object without [error] raises [KeyError] for the first field of the
    operation that it lacks. *)
Theorem remote_unexpected_answers self url user password alias s s1 (u sid : string) :
  _get_credentials self url user password alias s = (s1, inr (u, sid)) ->
  (forall (flow : string) r,
     server (trace s1) (u +:+ "/executor") (run_data self s1 sid flow) ∅ = PostResponse r ->
     (json r = None ->
      (run self flow url user password alias s).2
      = inl (ValueError "No JSON object could be decoded")) /\
     (forall res,
        json r = Some res -> res !! "error" = None -> res !! "execid" = None ->
        (run self flow url user password alias s).2 = inl (KeyError "execid"))) /\
  (forall (archive : string) o r,
     fs s1 !! archive = Some o ->
     server (trace s1) (u +:+ "/manager") (upload_data self s1 sid) (upload_files o)
     = PostResponse r ->
     (json r = None ->
      (upload self archive url user password alias s).2
      = inl (ValueError "No JSON object could be decoded")) /\
     (forall res,
        json r = Some res -> res !! "error" = None -> res !! "projectId" = None ->
        (upload self archive url user password alias s).2 = inl (KeyError "projectId")) /\
     (forall res,
        json r = Some res -> res !! "error" = None ->
        is_Some (res !! "projectId") -> res !! "version" = None ->
        (upload self archive url user password alias s).2 = inl (KeyError "version"))).
Proof.
  intros Hcred. split.
  - intros flow r Hanswer. rewrite (run_run _ _ _ _ _ _ _ s1 u sid Hcred). cbv zeta.
    rewrite Hanswer. unfold run_answer. split.
    + by intros ->.
    + by intros res -> -> ->.
  - intros archive o r Harchive Hanswer.
    rewrite (upload_run _ _ _ _ _ _ _ s1 u sid Hcred), Harchive. cbv zeta.
    rewrite Hanswer. unfold upload_answer. split; [|split].
    + by intros ->.
    + by intros res -> -> ->.
    + by intros res -> -> [pid ->] ->.
Qed.

Lemma upload_keeps self (archive : string) url user password alias s s' r :
  upload self archive url user password alias s = (s', r) ->
  heap s' = heap s /\ fs s' = fs s /\ (truthy_opt alias = false -> rc s' = rc s).
Proof.
  destruct (_get_credentials self url user password alias s) as [s1 [e|[u sid]]] eqn:Hcred.
  - unfold upload, bind. rewrite Hcred. intros [= <- _].
    apply get_credentials_keeps in Hcred as (Hh & Hf & Hr). auto.
  - rewrite (upload_run _ _ _ _ _ _ _ s1 u sid Hcred).
    apply get_credentials_keeps in Hcred as (Hh & Hf & Hr).
    destruct (fs s1 !! archive) as [o|]; [|intros [= <- _]; auto]. cbv zeta.
    destruct (server _ _ _ _) as [e|resp]; [intros [= <- _]; auto|].
    unfold upload_answer. repeat case_match; intros [= <- _]; auto.
Qed.

Lemma run_keeps self (flow : string) url user password alias s s' r :
  run self flow url user password alias s = (s', r) ->
  heap s' = heap s /\ fs s' = fs s /\ (truthy_opt alias = false -> rc s' = rc s).
Proof.
  destruct (_get_credentials self url user password alias s) as [s1 [e|[u sid]]] eqn:Hcred.
  - unfold run, bind. rewrite Hcred. intros [= <- _].
    apply get_credentials_keeps in Hcred as (Hh & Hf & Hr). auto.
  - rewrite (run_run _ _ _ _ _ _ _ s1 u sid Hcred).
    apply get_credentials_keeps in Hcred as (Hh & Hf & Hr). cbv zeta.
    destruct (server _ _ _ _) as [e|resp]; [intros [= <- _]; auto|].
    unfold run_answer. repeat case_match; intros [= <- _]; auto.
Qed.

(** X19: however they end, [upload] and [run] change no project and
    nothing on disk, and without an alias they leave the credential file as
    it is. *)
Theorem remote_frame self url user password alias s :
  (forall (archive : string) s' r,
     upload self archive url user password alias s = (s', r) ->
     heap s' = heap s /\ fs s' = fs s /\ (truthy_opt alias = false -> rc s' = rc s)) /\
  (forall (flow : string) s' r,
     run self flow url user password alias s = (s', r) ->
     heap s' = heap s /\ fs s' = fs s /\ (truthy_opt alias = false -> rc s' = rc s)).
Proof.
  split.
  - intros archive s' r. apply upload_keeps.
  - intros flow s' r. apply run_keeps.
Qed.

(** ** The command line, again *)

(** X20: [main] never lets the domain error out.  Without [--quiet] it
    raises [NameError] before it looks at the command and changes nothing;
    with [--quiet] it returns exactly when the command returns, in the same
    state, and what it raises is the exit with status 1 or an exception of
    the command that is not the domain error. *)
Theorem main_outcomes self (args : Args) s :
  (forall s' e, main self args s = (s', inl e) -> forall msg, e <> AzkabanError msg) /\
  (quiet args = false ->
   main self args s = (s, inl (NameError "get_formatted_stream_handler"))) /\
  (quiet args = true ->
   (forall s', main self args s = (s', inr tt) <-> dispatch self args s = (s', inr tt)) /\
   (forall s' e,
      main self args s = (s', inl e) ->
      (e = SystemExit 1 /\ exists t msg, dispatch self args s = (t, inl (AzkabanError msg))) \/
      dispatch self args s = (s', inl e))).
Proof.
  split; [|split].
  - intros s' e. destruct (quiet args) eqn:Hq.
    + rewrite main_quiet by done.
      destruct (dispatch self args s) as [t [e0|[]]]; [|done].
      destruct e0; intros [= _ <-]; done.
    + rewrite main_verbose by done. intros [= _ <-]. done.
  - apply main_verbose.
  - intros Hq. rewrite main_quiet by done.
    destruct (dispatch self args s) as [t [e0|[]]].
    + split.
      * intros s'. destruct e0; split; intros [=].
      * intros s' e. destruct e0; intros [= <- <-]; eauto 10.
    + split; [done|]. intros s' e [=].
Qed.

Lemma emit_all_nil s : emit_all [] s = s.
Proof. destruct s. unfold emit_all. simpl. by rewrite app_nil_r. Qed.

Lemma emit_all_cons (e : event) (evs : list event) s :
  emit_all evs (emit e s) = emit_all (e :: evs) s.
Proof. unfold emit_all, emit. simpl. by rewrite <- app_assoc. Qed.

Lemma stdout_rounds {A} (line : A -> string) (l : list A) s :
  for_each l (fun x => stdout_write (line x)) s
  = (emit_all ((fun x => EvStdout (line x)) <$> l) s, inr tt).
Proof.
  revert s. induction l as [|x l IH]; intros s.
  - simpl. by rewrite emit_all_nil.
  - rewrite for_each_cons. unfold stdout_write at 1. unfold modify.
    rewrite IH. by rewrite emit_all_cons.
Qed.

Lemma for_each_ext {A} (f g : A -> M Job unit) (l : list A) s :
  (forall x t, f x t = g x t) -> for_each l f s = for_each l g s.
Proof.
  intros Hfg. revert s. induction l as [|x l IH]; intros s; [done|].
  rewrite !for_each_cons, Hfg. destruct (g x s) as [s1 [e|[]]]; [done|apply IH].
Qed.

Lemma list_plain_rounds self s :
  dispatch self (mkArgs true (CmdList false false)) s
  = (emit_all ((fun '(name, _) => EvStdout (name +:+ nl)) <$> items (_jobs (heap s self))) s,
     inr tt) /\
  dispatch self (mkArgs true (CmdList false true)) s
  = (emit_all ((fun '(path, _) => EvStdout (relpath path +:+ nl))
                 <$> items (_files (heap s self))) s,
     inr tt).
Proof.
  split.
  - unfold dispatch. simpl. unfold bind, self_jobs, gets.
    rewrite (for_each_ext _ (fun x => stdout_write ((fun '(name, _) => name +:+ nl) x)))
      by (by intros [name job] t).
    rewrite stdout_rounds. do 2 f_equal.
    apply list_fmap_ext. by intros _ [name job] _.
  - unfold dispatch. simpl. unfold bind, self_files, gets.
    rewrite (for_each_ext _ (fun x => stdout_write ((fun '(path, _) => relpath path +:+ nl) x)))
      by (by intros [path ap] t).
    rewrite stdout_rounds. do 2 f_equal.
    apply list_fmap_ext. by intros _ [path ap] _.
Qed.

(** X21: the plain listings of the command line, with [--quiet], return
    and change nothing: they write the names of the jobs, or what [relpath]
    gives for the registered files, one to a line, in the order of the
    dictionary, and nothing else. *)
Theorem list_plain self s :
  main self (mkArgs true (CmdList false false)) s
  = (emit_all ((fun '(name, _) => EvStdout (name +:+ nl)) <$> items (_jobs (heap s self))) s,
     inr tt) /\
  main self (mkArgs true (CmdList false true)) s
  = (emit_all ((fun '(path, _) => EvStdout (relpath path +:+ nl))
                 <$> items (_files (heap s self))) s,
     inr tt).
Proof.
  rewrite !main_quiet by done. destruct (list_plain_rounds self s) as [-> ->]. done.
Qed.

(** The rounds of the pretty listing of files. *)
Lemma pretty_file_rounds (l : list (string * option string)) s :
  let run := for_each l pretty_file_round s in
  heap run.1 = heap s /\ fs run.1 = fs s /\ rc run.1 = rc s /\
  ((forall path ap, (path, ap) ∈ l -> is_Some (fs s !! path)) ->
   run.2 = inr tt /\
   exists evs, trace run.1 = trace s ++ evs /\ length evs = length l /\
               forallb is_stdout evs = true) /\
  ((exists path ap, (path, ap) ∈ l /\ fs s !! path = None) ->
   exists path ap, (path, ap) ∈ l /\ fs s !! path = None /\ run.2 = inl (OSError path)).
Proof.
  revert s. induction l as [|[path ap] l IH]; intros s; cbv zeta.
  - simpl. repeat split; try done.
    + exists []. by rewrite app_nil_r.
    + intros (p & a & Hin & _). by apply elem_of_nil in Hin.
  - rewrite for_each_cons.
    destruct (pretty_file_round (path, ap) s) as [s1 r1] eqn:Hround.
    unfold pretty_file_round, bind, human_size, stdout_write, modify in Hround.
    destruct (fs s !! path) as [o|] eqn:Hpath; injection Hround as <- <-.
    + set (s1 := emit _ s).
      destruct (IH s1) as (Hh & Hf & Hr & Hall & Hsome).
      split; [done|]. split; [done|]. split; [done|]. split.
      * intros Hl. destruct Hall as (Hret & evs & Htr & Hlen & Hout).
        { intros p a Hin. apply (Hl p a). by right. }
        split; [done|]. eexists (_ :: evs). rewrite Htr. subst s1. simpl.
        rewrite <- app_assoc. split; [done|]. split; [by rewrite Hlen|done].
      * intros (p & a & Hin & Hgone). apply elem_of_cons in Hin as [[= -> ->]|Hin].
        { congruence. }
        destruct Hsome as (p' & a' & Hin' & Hgone' & Hrun); [by eauto|].
        exists p', a'. split; [by right|done].
    + simpl. split; [done|]. split; [done|]. split; [done|]. split.
      * intros Hl. destruct (Hl path ap) as [o Ho]; [left|]. congruence.
      * intros _. exists path, ap. split; [left|done].
Qed.

(** X23: the pretty listing of the files fails when a registered file has
    left the disk: it raises [OSError] for such a file, which [main] lets
    through, where the plain listing would return.  When every registered
    file is on disk it returns and writes one line for each.  Either way it
    changes no project, nothing on disk and not the credential file. *)
Theorem list_pretty_files self s :
  let run := main self (mkArgs true (CmdList true true)) s in
  heap run.1 = heap s /\ fs run.1 = fs s /\ rc run.1 = rc s /\
  ((forall path ap, _files (heap s self) !! path = Some ap -> is_Some (fs s !! path)) ->
   run.2 = inr tt /\
   exists evs, trace run.1 = trace s ++ evs /\ length evs = size (_files (heap s self)) /\
               forallb is_stdout evs = true) /\
  ((exists path ap, _files (heap s self) !! path = Some ap /\ fs s !! path = None) ->
   exists path ap, _files (heap s self) !! path = Some ap /\ fs s !! path = None /\
                   run.2 = inl (OSError path)).
Proof.
  cbv zeta. rewrite main_quiet by done.
  change (dispatch self (mkArgs true (CmdList true true)) s)
    with (for_each (items (_files (heap s self))) pretty_file_round s).
  destruct (pretty_file_rounds (items (_files (heap s self))) s) as (Hh & Hf & Hr & Hall & Hsome).
  assert (forall path ap,
            (path, ap) ∈ items (_files (heap s self)) <-> _files (heap s self) !! path = Some ap)
    as Hitems by (intros path ap; apply elem_of_map_to_list).
  destruct (for_each (items (_files (heap s self))) pretty_file_round s) as [t r] eqn:Hrun.
  simpl in *. split; [|split; [|split; [|split]]].
  - destruct r as [[]|[]]; done.
  - destruct r as [[]|[]]; done.
  - destruct r as [[]|[]]; done.
  - intros Hl. destruct Hall as (-> & evs & Htr & Hlen & Hout).
    { intros path ap Hin. apply (Hl path ap). by apply Hitems. }
    split; [done|]. exists evs. split; [done|]. split; [|done].
    rewrite Hlen. unfold items. by rewrite length_map_to_list.
  - intros (path & ap & Hreg & Hgone).
    destruct Hsome as (p & a & Hin & Hgone' & ->).
    { exists path, ap. split; [by apply Hitems|done]. }
    exists p, a. split; [by apply Hitems|done].
Qed.

(** X22: an upload from the command line without [--zip] builds the archive
    at a path of [temppath], which removes it again: however the command
    ends, the disk is as it was found and no project has changed but,
    through its [on_build] handlers, the one that is uploaded. *)
Theorem upload_without_zip self (q : bool) (zip URL user alias : option string) s :
  truthy_opt zip = false ->
  let s' := (main self (mkArgs q (CmdUpload zip URL user alias)) s).1 in
  fs s' = fs s /\ forall r, r <> self -> heap s' r = heap s r.
Proof.
  intros Hzip.
  assert (forall t r, dispatch self (mkArgs q (CmdUpload zip URL user alias)) s = (t, r) ->
            fs t = fs s /\ forall r', r' <> self -> heap t r' = heap s r') as Hdispatch.
  { intros t r. unfold dispatch. simpl. rewrite Hzip.
    unfold temppath, bind at 1. unfold gets. unfold try_finally, modify.
    pose proof (mkstemp_fresh (fs s)) as Hfresh. set (path := mkstemp (fs s)) in *.
    unfold bind at 1.
    destruct (build self path false s) as [t1 r1] eqn:Hbuild.
    apply build_keeps in Hbuild as (Hfs1 & _ & Hheap1).
    assert (delete path (fs t1) = fs s) as Hclean.
    { destruct Hfs1 as [->|[es ->]].
      - by apply delete_id.
      - rewrite delete_insert_eq. by apply delete_id. }
    destruct r1 as [e|[]].
    { intros [= <- _]. simpl. by auto. }
    unfold bind at 1.
    destruct (upload self path URL user None alias t1) as [t2 r2] eqn:Hupload.
    apply upload_keeps in Hupload as (Hheap2 & Hfs2 & _).
    destruct r2 as [e|res]; intros [= <- _]; simpl; rewrite Hfs2, Hclean, Hheap2; by auto. }
  intros s'. subst s'.
  destruct q.
  - rewrite main_quiet by done.
    destruct (dispatch self (mkArgs true (CmdUpload zip URL user alias)) s) as [t r] eqn:Hd.
    specialize (Hdispatch t r eq_refl). destruct r as [e|[]]; [|done]. by destruct e.
  - by rewrite main_verbose.
Qed.

End RemoteMore.

(** ** More concrete runs *)

Lemma merge_into_self_witness :
  (merge_into 1 1 Demo.with_file).1 = Demo.with_file /\
  exists nm, (merge_into 1 1 Demo.with_file).2
             = inl (AzkabanError ("duplicate job name " +:+ repr nm)).
Proof.
  destruct (merge_into_self 1 Demo.with_file) as (Hsame & Hjobs & _).
  split; [exact Hsame|].
  destruct Hjobs as (nm & _ & Hraises).
  - intros Hempty. apply (f_equal (fun m => m !! "j1")) in Hempty.
    vm_compute in Hempty. discriminate.
  - by exists nm.
Defined.

Lemma build_footprint_witness :
  let run := build (env := Demo.good_env) 0 "/out.zip" false Demo.without_file in
  (fs run.1 = fs Demo.without_file \/
   exists es, fs run.1 = <["/out.zip" := ZipArchive es]> (fs Demo.without_file)) /\
  rc run.1 = rc Demo.without_file.
Proof.
  intros run.
  assert (build (env := Demo.good_env) 0 "/out.zip" false Demo.without_file = (run.1, run.2))
    as Hrun by (vm_compute; reflexivity).
  destruct (build_footprint (env := Demo.good_env) _ _ _ _ _ _ Hrun) as (Hfs & Hrc & _).
  split; [exact Hfs|exact Hrc].
Defined.

Lemma build_missing_file_witness :
  exists fpath apath s' es,
    _files Demo.foo !! fpath = Some apath /\ fs Demo.without_file !! fpath = None /\
    build (env := Demo.good_env) 0 "/out.zip" false Demo.without_file
    = (s', inl (OSError fpath)) /\
    fs s' = <["/out.zip" := ZipArchive es]> (fs Demo.without_file).
Proof.
  apply (build_missing_file (env := Demo.good_env) 0 "/out.zip" false Demo.without_file).
  - intros [[o Ho] _]. vm_compute in Ho. discriminate.
  - reflexivity.
  - exact plain_on_build_silent.
  - intros fpath apath Hreg.
    change (_files (heap Demo.without_file 0))
      with ({[ "/data/a.txt" := None ]} : gmap string (option string)) in Hreg.
    apply lookup_singleton_Some in Hreg as [<- <-]. vm_compute. discriminate.
  - exists "/data/a.txt", None. split; [reflexivity|]. split; [reflexivity|]. discriminate.
Defined.

Lemma get_credentials_frame_witness :
  let run := _get_credentials (env := Demo.good_env) 1 None None None (Some "dev")
                              Demo.aliased in
  heap run.1 = heap Demo.aliased /\ fs run.1 = fs Demo.aliased /\ rc run.1 = rc Demo.aliased.
Proof.
  intros run.
  assert (_get_credentials (env := Demo.good_env) 1 None None None (Some "dev") Demo.aliased
          = (run.1, inl (AzkabanError "missing alias 'dev'"))) as Hrun
    by (vm_compute; reflexivity).
  destruct (get_credentials_frame (env := Demo.good_env) _ _ _ _ _ _ _ _ Hrun)
    as (Hheap & Hfs & Hrc).
  split; [exact Hheap|]. split; [exact Hfs|]. apply Hrc. right. eauto.
Defined.

Lemma get_credentials_url_witness :
  _get_credentials (env := Demo.good_env) 1 (Some "http://az//") (Some "carol") (Some "pw")
                   None Demo.packed
  = (emit (EvPost "http://az"
                  {[ "action" := "login"; "username" := "carol"; "password" := "pw" ]} ∅)
          Demo.packed,
     inr ("http://az", "tok-1")).
Proof.
  destruct (get_credentials_url (env := Demo.good_env) 1 (Some "http://az//") (Some "carol")
              (Some "pw") None Demo.packed eq_refl eq_refl) as [_ Hanswer].
  destruct (Hanswer (mkResponse "{}" (Some {[ "session.id" := "tok-1" ]}))
              {[ "session.id" := "tok-1" ]}) as [_ Hgood];
    [vm_compute; reflexivity..|].
  apply (Hgood "tok-1"); vm_compute; reflexivity.
Defined.

Lemma get_credentials_alias_overrides_witness :
  _get_credentials (env := Demo.good_env) 1 (Some "http://other/") (Some "carol") None
                   (Some "prod") Demo.aliased
  = _get_credentials (env := Demo.good_env) 1 None None None (Some "prod") Demo.aliased.
Proof.
  apply (get_credentials_alias_overrides (env := Demo.good_env)). reflexivity.
Defined.

Lemma get_credentials_no_trailing_slash_witness :
  exists u sid,
    (_get_credentials (env := Demo.good_env) 1 None None None (Some "prod") Demo.aliased).2
    = inr (u, sid) /\
    u <> "http://az" +:+ "/".
Proof.
  exists "http://az", "tok-1". split; [vm_compute; reflexivity|].
  apply (get_credentials_no_trailing_slash (env := Demo.good_env) 1 None None None
           (Some "prod") Demo.aliased
           (_get_credentials (env := Demo.good_env) 1 None None None (Some "prod")
                             Demo.aliased).1
           "http://az" "tok-1").
  vm_compute. reflexivity.
Defined.

Lemma get_credentials_caches_witness :
  let s1 := (_get_credentials (env := Demo.good_env) 1 None None None (Some "prod")
                              Demo.aliased).1 in
  option_value (rc_parser s1) "prod" "session_id" = Some "tok-1".
Proof.
  intros s1.
  assert (_get_credentials (env := Demo.good_env) 1 None None None (Some "prod") Demo.aliased
          = (s1, inr ("http://az", "tok-1"))) as Hrun by (vm_compute; reflexivity).
  destruct (get_credentials_caches (env := Demo.good_env) 1 None None None "prod" Demo.aliased
              s1 "http://az" "tok-1" eq_refl Hrun) as [Hsid _].
  exact Hsid.
Defined.

Lemma get_credentials_reuses_witness :
  let s1 := (_get_credentials (env := Demo.good_env) 1 None None None (Some "prod")
                              Demo.aliased).1 in
  _get_credentials (env := Demo.good_env) 1 None None None (Some "prod") s1
  = (emit (probe_event "http://az" "tok-1") s1, inr ("http://az", "tok-1")).
Proof.
  intros s1.
  apply (get_credentials_reuses (env := Demo.good_env) 1 None None None None None None
           "prod" Demo.aliased s1 "http://az" "tok-1"
           (mkResponse EmptyString
              (Some {[ "projectId" := "7"; "version" := "1"; "execid" := "42" ]})));
    vm_compute; reflexivity.
Defined.

Lemma upload_missing_witness :
  let s1 := (_get_credentials (env := Demo.good_env) 1 (Some "http://az/") None None None
                              Demo.packed).1 in
  upload (env := Demo.good_env) 1 "/gone.zip" (Some "http://az/") None None None Demo.packed
  = (s1, inl (AzkabanError "unable to find archive at '/gone.zip'")).
Proof.
  intros s1.
  apply (upload_missing (env := Demo.good_env) 1 "/gone.zip" (Some "http://az/") None None None
           Demo.packed s1 "http://az" "tok-1"); vm_compute; reflexivity.
Defined.

Lemma remote_request_failures_witness :
  (run (env := Demo.down_env) 1 "nightly" (Some "http://az/") None None None Demo.packed).2
  = inl (AzkabanError "unable to connect to azkaban server").
Proof.
  destruct (remote_request_failures (env := Demo.down_env) 1 (Some "http://az/") None None None
              Demo.packed
              (_get_credentials (env := Demo.down_env) 1 (Some "http://az/") None None None
                                Demo.packed).1
              "http://az" "tok-1") as [Hrun _].
  - vm_compute. reflexivity.
  - apply (Hrun "nightly" ConnectionError). vm_compute. reflexivity.
Defined.

Lemma remote_unexpected_answers_witness :
  (run (env := Demo.html_env) 1 "nightly" (Some "http://az/") None None None Demo.packed).2
  = inl (ValueError "No JSON object could be decoded").
Proof.
  destruct (remote_unexpected_answers (env := Demo.html_env) 1 (Some "http://az/") None None
              None Demo.packed
              (_get_credentials (env := Demo.html_env) 1 (Some "http://az/") None None None
                                Demo.packed).1
              "http://az" "tok-1") as [Hrun _].
  - vm_compute. reflexivity.
  - destruct (Hrun "nightly" (mkResponse "<html>" None)) as [Hhtml _].
    + vm_compute. reflexivity.
    + apply Hhtml. reflexivity.
Defined.

Lemma remote_frame_witness :
  let run := upload (env := Demo.good_env) 1 "/out.zip" (Some "http://az/") None None None
                    Demo.packed in
  heap run.1 = heap Demo.packed /\ fs run.1 = fs Demo.packed /\ rc run.1 = rc Demo.packed.
Proof.
  intros run.
  destruct (remote_frame (env := Demo.good_env) 1 (Some "http://az/") None None None Demo.packed)
    as [Hupload _].
  destruct (Hupload "/out.zip" run.1 run.2) as (Hheap & Hfs & Hrc).
  - vm_compute. reflexivity.
  - split; [exact Hheap|]. split; [exact Hfs|]. apply Hrc. reflexivity.
Defined.

Lemma main_outcomes_witness :
  main (env := Demo.good_env) 1 (mkArgs false (CmdView "j9")) Demo.packed
  = (Demo.packed, inl (NameError "get_formatted_stream_handler")).
Proof.
  destruct (main_outcomes (env := Demo.good_env) 1 (mkArgs false (CmdView "j9")) Demo.packed)
    as (_ & Hverbose & _).
  apply Hverbose. reflexivity.
Defined.

Lemma upload_without_zip_witness :
  fs (main (env := Demo.good_env) 0 (mkArgs true (CmdUpload None (Some "http://az/") None None))
           Demo.ready).1
  = Demo.disk.
Proof.
  destruct (upload_without_zip (env := Demo.good_env) 0 true None (Some "http://az/") None None
              Demo.ready eq_refl) as [Hfs _].
  exact Hfs.
Defined.

Lemma list_pretty_files_witness :
  exists path,
    (main (env := Demo.good_env) 0 (mkArgs true (CmdList true true)) Demo.without_file).2
    = inl (OSError path).
Proof.
  destruct (list_pretty_files (env := Demo.good_env) 0 Demo.without_file)
    as (_ & _ & _ & _ & Hgone).
  destruct Hgone as (path & ap & _ & _ & Hraises).
  - exists "/data/a.txt", None. split; reflexivity.
  - by exists path.
Defined.
